(** * Chisom UI colour picker: colour conversion and recent-colour history

    A shallow embedding of the logic of [ColorPickerInput]
    (registry/new-york/ui/color-picker-input.tsx): the hex validity test,
    the hex/RGB/HSL conversions, the display formatter, the recent-colour
    list update, the load effect and the input handlers.

    Conventions of the embedding.
    - A JavaScript string is a [string]: a sequence of 8-bit code units
      (the Latin-1 range).  Code units above 255 are outside the model.
    - An integer-valued JavaScript number is a [Z]; the fractional numbers
      of the HSL conversion are IEEE 754 binary64 values ([float], the
      kernel's primitive floats), the representation JavaScript prescribes.
    - A React state update is applied where the setter is called; a handler
      is a function from the component's state to its state after the
      handler ran. *)

From Stdlib Require Import ZArith List String Ascii Bool Lia.
From Stdlib Require Import DecimalString.
From Stdlib Require Import Floats.
Import ListNotations.

Local Open Scope bool_scope.
Local Open Scope Z_scope.

(* ================================================================== *)
(** ** JavaScript built-ins used by the component *)
(* ================================================================== *)

Module JS.

(** [lo <= code(c) <= hi]. *)
Definition inRange (lo hi : nat) (c : ascii) : bool :=
  (lo <=? nat_of_ascii c)%nat && (nat_of_ascii c <=? hi)%nat.

(** One code unit of [String.prototype.toLowerCase]: A-Z and the Latin-1
    capitals (U+00C0..U+00DE except the multiplication sign U+00D7) move
    32 places up. *)
Definition toLowerChar (c : ascii) : ascii :=
  if inRange 65 90 c
     || (inRange 192 222 c && negb (nat_of_ascii c =? 215)%nat)
  then ascii_of_nat (nat_of_ascii c + 32)
  else c.

(** One code unit of [String.prototype.toUpperCase] on ASCII text: a-z
    move 32 places down.  It is [toUpperCase] on text whose code units are
    all below 128, and only there: outside ASCII [toUpperCase] also maps
    letters that this definition leaves alone and can change the length
    of the text.  The component upper-cases only text that passed the hex
    test or that the native colour input produced (always [#rrggbb]), both
    ASCII. *)
Definition toUpperChar (c : ascii) : ascii :=
  if inRange 97 122 c then ascii_of_nat (nat_of_ascii c - 32) else c.

Fixpoint mapString (f : ascii -> ascii) (s : string) : string :=
  match s with
  | EmptyString => EmptyString
  | String c rest => String (f c) (mapString f rest)
  end.

Definition toLowerCase : string -> string := mapString toLowerChar.
Definition toUpperCase : string -> string := mapString toUpperChar.

(** [a.toLowerCase() === b.toLowerCase()]. *)
Definition eqIgnoreCase (a b : string) : bool :=
  String.eqb (toLowerCase a) (toLowerCase b).

(** [Array.prototype.slice(0, e)] for an integer [e]: a negative end counts
    from the end of the array, and the end is clamped to the length. *)
Definition slice0 {A : Type} (l : list A) (e : Z) : list A :=
  let len := Z.of_nat (List.length l) in
  let final := if e <? 0 then Z.max (len + e) 0 else Z.min e len in
  firstn (Z.to_nat final) l.

(** The value of a hexadecimal digit ([0] for any other code unit: the
    callers below pass hexadecimal digits only). *)
Definition hexDigitValue (c : ascii) : Z :=
  let n := Z.of_nat (nat_of_ascii c) in
  if inRange 48 57 c then n - 48
  else if inRange 65 70 c then n - 55
  else if inRange 97 102 c then n - 87
  else 0.

(** [parseInt(s, 16)] on a non-empty string of hexadecimal digits, which is
    what the capture groups of [hexToRgb] hold. *)
Definition parseInt16 (s : string) : Z :=
  fold_left (fun acc c => 16 * acc + hexDigitValue c) (list_ascii_of_string s) 0.

(** The digit [Number.prototype.toString(16)] writes for [0 <= d < 16]. *)
Definition hexDigitOf (d : Z) : ascii :=
  if d <? 10 then ascii_of_nat (Z.to_nat (d + 48)) else ascii_of_nat (Z.to_nat (d + 87)).

Fixpoint toHexDigits (fuel : nat) (n : Z) (acc : string) : string :=
  match fuel with
  | O => acc
  | S k =>
      let acc' := String (hexDigitOf (n mod 16)) acc in
      if n / 16 =? 0 then acc' else toHexDigits k (n / 16) acc'
  end.

(** [x.toString(16)] for an integer [x]: lower-case digits, most
    significant first, a minus sign before a negative number. *)
Definition toString16 (x : Z) : string :=
  let digits (n : Z) := toHexDigits (S (Z.to_nat (Z.log2 n))) n EmptyString in
  if x <? 0 then String "-" (digits (- x)) else digits x.

(** The text a template literal inserts for an integer-valued number. *)
Definition numberToString (x : Z) : string :=
  NilZero.string_of_int (Z.to_int x).

(** [Math.round] of a binary64 value, as an integer: the float is decoded
    to [m * 2^e] and [floor (x + 1/2)] is computed exactly, so ties go
    towards plus infinity.  NaN and the infinities, which [Math.round]
    returns unchanged, have no integer value; [hexToHsl] never rounds one
    and the model gives them [0]. *)
Definition Math_round (x : float) : Z :=
  match Prim2SF x with
  | S754_finite s m e =>
      let n := if s then Z.neg m else Z.pos m in
      if 0 <=? e then n * 2 ^ e
      else (2 * n + 2 ^ (- e)) / 2 ^ (- e + 1)
  | _ => 0
  end.

(** The binary64 value of an integer in the range of [0 .. 2^63). *)
Definition numberOfZ (z : Z) : float := PrimFloat.of_uint63 (Uint63.of_Z z).

(** [Math.max(a, b, c)] and [Math.min(a, b, c)] on numbers that are not
    NaN. *)
Definition Math_max3 (a b c : float) : float :=
  let m := if PrimFloat.ltb a b then b else a in
  if PrimFloat.ltb m c then c else m.

Definition Math_min3 (a b c : float) : float :=
  let m := if PrimFloat.ltb b a then b else a in
  if PrimFloat.ltb c m then c else m.

End JS.

(* ================================================================== *)
(** ** Colour conversion utilities *)
(* ================================================================== *)

Record RGB : Type := mkRGB { r : Z; g : Z; b : Z }.
Record HSL : Type := mkHSL { h : Z; s : Z; l : Z }.

(** The character class [[0-9A-F]] under the [i] flag. *)
Definition class_09AF_i (c : ascii) : bool :=
  JS.inRange 48 57 c || JS.inRange 65 70 c || JS.inRange 97 102 c.

(** The character class [[a-f\d]] under the [i] flag. *)
Definition class_afd_i (c : ascii) : bool :=
  JS.inRange 97 102 c || JS.inRange 65 70 c || JS.inRange 48 57 c.

(** [/^#[0-9A-F]{6}$/i.test(color)]. *)
Definition isValidHex (color : string) : bool :=
  match color with
  | String "#" (String d1 (String d2 (String d3 (String d4 (String d5
      (String d6 EmptyString)))))) =>
      forallb class_09AF_i [d1; d2; d3; d4; d5; d6]
  | _ => false
  end.

(** What is left for the digits after the optional ['#'] of [hexToRgb]'s
    pattern.  ['#'] is not in the digit class, so backtracking over the
    optional ['#'] cannot produce a second match. *)
Definition withoutHash (hex : string) : string :=
  match hex with String "#" rest => rest | _ => hex end.

(** [/^#?([a-f\d]{2})([a-f\d]{2})([a-f\d]{2})$/i.exec(hex)] followed by
    [parseInt(_, 16)] on each group. *)
Definition hexToRgb (hex : string) : option RGB :=
  match withoutHash hex with
  | String a1 (String a2 (String b1 (String b2 (String c1
      (String c2 EmptyString))))) =>
      if forallb class_afd_i [a1; a2; b1; b2; c1; c2]
      then Some {| r := JS.parseInt16 (String a1 (String a2 EmptyString));
                   g := JS.parseInt16 (String b1 (String b2 EmptyString));
                   b := JS.parseInt16 (String c1 (String c2 EmptyString)) |}
      else None
  | _ => None
  end.

(** ["#" + [r, g, b].map(x => pad2(x.toString(16))).join("")]. *)
Definition rgbToHex (r g b : Z) : string :=
  let pad (x : Z) :=
    let hex := JS.toString16 x in
    if (String.length hex =? 1)%nat then String "0" hex else hex in
  String "#" (String.concat EmptyString (map pad [r; g; b])).

(** The part of [hexToHsl] after the parse: [r], [g], [b] are the channel
    values divided by 255, and the result is the triple [(h, s, l)] before
    scaling and rounding. *)
Definition hslOfUnit (r g b : float) : float * float * float :=
  let max := JS.Math_max3 r g b in
  let min := JS.Math_min3 r g b in
  let l := ((max + min) / 2)%float in
  if negb (PrimFloat.eqb max min) then
    let d := (max - min)%float in
    let s := if PrimFloat.ltb 0.5 l
             then (d / (2 - max - min))%float
             else (d / (max + min))%float in
    let h :=
      if PrimFloat.eqb max r
      then (((g - b) / d + (if PrimFloat.ltb g b then 6 else 0)) / 6)%float
      else if PrimFloat.eqb max g
      then (((b - r) / d + 2) / 6)%float
      else if PrimFloat.eqb max b
      then (((r - g) / d + 4) / 6)%float
      else 0%float in
    (h, s, l)
  else (0%float, 0%float, l).

(** A channel value divided by 255: [rgb.r / 255]. *)
Definition unitChannel (v : Z) : float := (JS.numberOfZ v / 255)%float.

(** [hexToHsl] from the parsed channels on: normalize, transform, then
    [Math.round(h * 360)], [Math.round(s * 100)], [Math.round(l * 100)]. *)
Definition hslOfRgb (rgb : RGB) : HSL :=
  let r := unitChannel (r rgb) in
  let g := unitChannel (g rgb) in
  let b := unitChannel (b rgb) in
  let '(h, s, l) := hslOfUnit r g b in
  {| h := JS.Math_round (h * 360)%float;
     s := JS.Math_round (s * 100)%float;
     l := JS.Math_round (l * 100)%float |}.

(** [hexToHsl]: [null] when [hexToRgb] gives [null]. *)
Definition hexToHsl (hex : string) : option HSL :=
  match hexToRgb hex with
  | None => None
  | Some rgb => Some (hslOfRgb rgb)
  end.

(** The 256 values a channel can have after the division by 255. *)
Definition unitChannels : list float :=
  map (fun n => unitChannel (Z.of_nat n)) (seq 0 256).

(** [0 <= x < hi] on binary64 values. *)
Definition below (hi x : float) : bool :=
  PrimFloat.leb 0 x && PrimFloat.ltb x hi.

(** The scaled components of [hslOfUnit r g b] round into [0 .. 360],
    [0 .. 100] and [0 .. 100]: each is at least 0 and less than the bound
    plus one half. *)
Definition hslInRange (r g b : float) : bool :=
  let '(h, s, l) := hslOfUnit r g b in
  below 360.5 (h * 360)%float
  && below 100.5 (s * 100)%float
  && below 100.5 (l * 100)%float.

(** A grey has equal maximal and minimal channel. *)
Definition greyIsAchromatic (c : float) : bool :=
  PrimFloat.eqb (JS.Math_max3 c c c) (JS.Math_min3 c c c).

(* ================================================================== *)
(** ** The component: props, state and handlers *)
(* ================================================================== *)

Inductive ColorFormat : Type := FormatHex | FormatRgb | FormatHsl.

(** The props the handlers read.  [onChange] is an optional prop:
    [onChangeGiven] says whether the callback is given. *)
Record Props : Type := mkPropsWith {
  disabled : bool;
  maxRecentColors : Z;
  format : ColorFormat;
  onChangeGiven : bool
}.

(** Props with an [onChange] callback, as the demo page passes them. *)
Definition mkProps (disabled : bool) (maxRecentColors : Z) (format : ColorFormat)
    : Props :=
  mkPropsWith disabled maxRecentColors format true.

(** The state of one mounted component, with the two things its handlers
    send outwards: the calls of the [onChange] callback and the arrays
    written to local storage under ["color-picker-recent"], both oldest
    first. *)
Record State : Type := mkState {
  currentColor : string;
  inputValue : string;
  recentColors : list string;
  notified : list string;
  saved : list (list string)
}.

Definition setCurrentColor (v : string) (st : State) : State :=
  mkState v (inputValue st) (recentColors st) (notified st) (saved st).

Definition setInputValue (v : string) (st : State) : State :=
  mkState (currentColor st) v (recentColors st) (notified st) (saved st).

(** [onChange?.(v)]: the callback is called when it is given. *)
Definition onChange (p : Props) (v : string) (st : State) : State :=
  if onChangeGiven p
  then mkState (currentColor st) (inputValue st) (recentColors st)
               (notified st ++ [v]) (saved st)
  else st.

(** The function [updateRecentColors] passes to [setRecentColors]: drop
    the entries equal to [color] ignoring case, put [color] in front, keep
    [maxRecentColors] entries. *)
Definition updatedRecentColors (maxRecentColors : Z) (color : string)
    (prev : list string) : list string :=
  let filtered := filter (fun c => negb (JS.eqIgnoreCase c color)) prev in
  JS.slice0 (color :: filtered) maxRecentColors.

(** [updateRecentColors]: nothing happens for a colour that fails the hex
    test; otherwise the list is replaced and written to storage (a failing
    write is caught and logged, and the new list is returned all the
    same). *)
Definition updateRecentColors (p : Props) (color : string) (st : State) : State :=
  if negb (isValidHex color) then st
  else
    let updated := updatedRecentColors (maxRecentColors p) color (recentColors st) in
    mkState (currentColor st) (inputValue st) updated (notified st)
            (saved st ++ [updated]).

Definition handleColorChange (p : Props) (newColor : string) (st : State) : State :=
  if disabled p then st
  else updateRecentColors p newColor
         (onChange p newColor (setInputValue newColor (setCurrentColor newColor st))).

Definition handleNativePickerChange (p : Props) (value : string) (st : State) : State :=
  handleColorChange p (JS.toUpperCase value) st.

Definition handleInputChange (p : Props) (value : string) (st : State) : State :=
  let st1 := setInputValue value st in
  if isValidHex value then handleColorChange p (JS.toUpperCase value) st1
  else st1.

Definition handlePresetClick (p : Props) (color : string) (st : State) : State :=
  if disabled p then st else handleColorChange p color st.

(** [getFormattedColor]. *)
Definition getFormattedColor (p : Props) (st : State) : string :=
  let currentColor := currentColor st in
  if negb (isValidHex currentColor) then currentColor
  else
    match format p with
    | FormatRgb =>
        match hexToRgb currentColor with
        | Some rgb =>
            ("rgb(" ++ JS.numberToString (r rgb) ++ ", "
                    ++ JS.numberToString (g rgb) ++ ", "
                    ++ JS.numberToString (b rgb) ++ ")")%string
        | None => currentColor
        end
    | FormatHsl =>
        match hexToHsl currentColor with
        | Some hsl =>
            ("hsl(" ++ JS.numberToString (h hsl) ++ ", "
                    ++ JS.numberToString (s hsl) ++ "%, "
                    ++ JS.numberToString (l hsl) ++ "%)")%string
        | None => currentColor
        end
    | FormatHex => currentColor
    end.

(** The events of the three controls: text typed into the text input, a
    value picked in the native colour input, a click on a preset or recent
    swatch. *)
Inductive Event : Type :=
  | TextInput (text : string)
  | NativePick (value : string)
  | SwatchClick (color : string).

Definition handle (p : Props) (ev : Event) (st : State) : State :=
  match ev with
  | TextInput text => handleInputChange p text st
  | NativePick value => handleNativePickerChange p value st
  | SwatchClick color => handlePresetClick p color st
  end.

(** [updateRecentColors] called for each colour of [colors] in turn, the
    first colour first. *)
Definition recordAll (p : Props) (colors : list string) (st : State) : State :=
  fold_left (fun st color => updateRecentColors p color st) colors st.

(** The state the component starts in: [value] is the controlled value (by
    default ["#3B82F6"]) and the recent list is empty until the load effect
    has run. *)
Definition initialState (value : string) : State :=
  mkState value value [] [] [].

(* ================================================================== *)
(** ** The load effect *)
(* ================================================================== *)

(** What [JSON.parse] can return. *)
#[local] Set Warnings "-register-all".
Inductive JSValue : Type :=
  | JNull
  | JBool (v : bool)
  | JNumber (v : float)
  | JString (v : string)
  | JArray (items : list JSValue)
  | JObject (fields : list (string * JSValue)).

(** A call returns or throws. *)
Inductive Completion (A : Type) : Type :=
  | Returns (a : A)
  | Throws.
Arguments Returns {A} a.
Arguments Throws {A}.

Definition isStringArray (v : JSValue) : bool :=
  match v with
  | JArray items =>
      forallb (fun x => match x with JString _ => true | _ => false end) items
  | _ => false
  end.

(** The storage key of the recent colours. *)
Definition recentKey : string := "color-picker-recent".

Section LoadEffect.

(** The storage backend and the JSON decoder are the platform's. *)
Variable localStorage_getItem : string -> Completion (option string).
Variable JSON_parse : string -> Completion JSValue.

(** The effect that loads the recent colours: the value of the
    [recentColors] state after it ran, given the value before.  A throw
    of either call is caught and logged. *)
Definition loadRecentColors (recentColors : JSValue) : JSValue :=
  match localStorage_getItem recentKey with
  | Throws => recentColors
  | Returns None => recentColors
  | Returns (Some stored) =>
      if (String.length stored =? 0)%nat then recentColors
      else match JSON_parse stored with
           | Throws => recentColors
           | Returns v => v
           end
  end.

(** The state starts as [[]]. *)
Definition load : JSValue := loadRecentColors (JArray []).

End LoadEffect.

(* ================================================================== *)
(** ** Auxiliary views of the conversions *)
(* ================================================================== *)

(** The text is ASCII: every code unit is below 128. *)
Definition isAsciiText (text : string) : bool :=
  forallb (fun c => (nat_of_ascii c <? 128)%nat) (list_ascii_of_string text).

(** The text [rgbToHex] writes for one channel: its [map] callback. *)
Definition padded (x : Z) : string :=
  let hex := JS.toString16 x in
  if (String.length hex =? 1)%nat then String "0" hex else hex.

(* ================================================================== *)
(** ** The component, continued: the sync effect and runs of events *)
(* ================================================================== *)

(** The effect that follows the controlled [value] prop: a non-empty
    [value] that differs from the confirmed colour replaces it and the
    input buffer.  It runs when [value] changes. *)
Definition syncControlledValue (value : string) (st : State) : State :=
  if negb (String.length value =? 0)%nat && negb (String.eqb value (currentColor st))
  then setInputValue value (setCurrentColor value st)
  else st.

(** The text an event carries. *)
Definition payload (ev : Event) : string :=
  match ev with
  | TextInput text => text
  | NativePick value => value
  | SwatchClick color => color
  end.

(** The native colour input delivers valid [#rrggbb] values only. *)
Definition nativeValueValid (ev : Event) : bool :=
  match ev with
  | NativePick value => isValidHex value
  | _ => true
  end.

(** The handlers of a list of events, run in order. *)
Definition run (p : Props) (events : list Event) (st : State) : State :=
  fold_left (fun st ev => handle p ev st) events st.

(* ================================================================== *)
(** ** The registry (lib/registry.ts) and the pages that read it *)
(* ================================================================== *)

Module Registry.

Record File : Type := mkFile {
  path : string;
  fileType : string;
  target : option string
}.

Record Item : Type := mkItem {
  name : string;
  type : string;
  title : string;
  description : string;
  registryDependencies : option (list string);
  dependencies : option (list string);
  files : list File
}.

(** What [generateMetadata] returns. *)
Record Metadata : Type := mkMetadata {
  metaTitle : string;
  metaDescription : option string
}.

(** [ComponentPage] either calls [notFound()], which does not return, or
    renders the view of an item. *)
Inductive PageResult : Type :=
  | NotFound
  | ComponentView (item : Item).

Section WithRegistry.

(** [registry.items], the content of registry.json. *)
Variable items : list Item.

Definition getRegistryItem (n : string) : option Item :=
  find (fun item => String.eqb (name item) n) items.

Definition getAllRegistryItems : list Item := items.

Definition getRegistryItemSlugs : list string := map name items.

(** [generateStaticParams]: one [{ slug }] for each slug. *)
Definition generateStaticParams : list string :=
  map (fun slug => slug) getRegistryItemSlugs.

Definition generateMetadata (slug : string) : Metadata :=
  match getRegistryItem slug with
  | None => mkMetadata "Component Not Found" None
  | Some item => mkMetadata (title item ++ " - Chisom UI") (Some (description item))
  end.

(** [ComponentPage] up to the choice between [notFound()] and the view. *)
Definition ComponentPage (slug : string) : PageResult :=
  match getRegistryItem slug with
  | None => NotFound
  | Some item => ComponentView item
  end.

(** The link of each card of the home page. *)
Definition homeLinks : list string :=
  map (fun item => ("/components/" ++ name item)%string) getAllRegistryItems.

End WithRegistry.

End Registry.

(* ================================================================== *)
(** ** The search input (registry/new-york/ui/search-input.tsx) *)
(* ================================================================== *)

Module SearchInput.

(** The props the handlers read; a callback prop is [true] when it is
    given. *)
Record Props : Type := mkProps {
  value : option string;
  onChange : bool;
  onSearch : bool;
  onRecentSearchClick : bool;
  showRecentSearches : bool;
  recentSearches : list string;
  maxRecentSearches : Z;
  disabled : bool;
  isLoading : bool
}.

(** What a handler calls: a callback prop, or [blur()] on the input. *)
Inductive Call : Type :=
  | OnChange (v : string)
  | OnSearch (v : string)
  | OnRecentSearchClick (v : string)
  | Blur.

(** The state of one mounted search input and the calls made so far,
    oldest first. *)
Record State : Type := mkState {
  internalValue : string;
  showRecent : bool;
  calls : list Call
}.

Definition initialState : State := mkState EmptyString false [].

Definition setInternalValue (v : string) (st : State) : State :=
  mkState v (showRecent st) (calls st).

Definition setShowRecent (v : bool) (st : State) : State :=
  mkState (internalValue st) v (calls st).

(** [callback?.(arg)]: the call is made when the callback is given. *)
Definition callIf (given : bool) (c : Call) (st : State) : State :=
  if given then mkState (internalValue st) (showRecent st) (calls st ++ [c]) else st.

Definition isControlled (p : Props) : bool :=
  match value p with Some _ => true | None => false end.

Definition inputValue (p : Props) (st : State) : string :=
  match value p with Some v => v | None => internalValue st end.

Definition isEmpty (text : string) : bool := (String.length text =? 0)%nat.

Definition handleChange (p : Props) (newValue : string) (st : State) : State :=
  let st1 := if isControlled p then callIf (onChange p) (OnChange newValue) st
             else setInternalValue newValue st in
  if showRecentSearches p && isEmpty newValue
  then setShowRecent true st1
  else setShowRecent false st1.

Definition handleClear (p : Props) (st : State) : State :=
  if disabled p then st
  else
    let st1 := if isControlled p then callIf (onChange p) (OnChange EmptyString) st
               else setInternalValue EmptyString st in
    setShowRecent false (callIf (onSearch p) (OnSearch EmptyString) st1).

Definition handleRecentClick (p : Props) (search : string) (st : State) : State :=
  if disabled p then st
  else
    let st1 := if isControlled p then callIf (onChange p) (OnChange search) st
               else setInternalValue search st in
    setShowRecent false
      (callIf (onRecentSearchClick p) (OnRecentSearchClick search) st1).

Definition handleKeyDown (p : Props) (key : string) (st : State) : State :=
  if String.eqb key "Escape"
  then callIf true Blur (handleClear p st)
  else st.

(** The [mousedown] listener on the document; [inside] says whether the
    target lies in the component's container. *)
Definition handleClickOutside (inside : bool) (st : State) : State :=
  if negb inside then setShowRecent false st else st.

Definition handleFocus (p : Props) (st : State) : State :=
  if showRecentSearches p && isEmpty (inputValue p st)
     && (0 <? List.length (recentSearches p))%nat
  then setShowRecent true st
  else st.

Definition displayedRecentSearches (p : Props) : list string :=
  JS.slice0 (recentSearches p) (maxRecentSearches p).

(** The condition under which the dropdown is rendered. *)
Definition dropdownVisible (p : Props) (st : State) : bool :=
  showRecent st && showRecentSearches p
  && (0 <? List.length (displayedRecentSearches p))%nat.

(** The condition under which the clear button is rendered. *)
Definition clearButtonVisible (p : Props) (st : State) : bool :=
  negb (isEmpty (inputValue p st)) && negb (isLoading p) && negb (disabled p).

Inductive Event : Type :=
  | Change (text : string)
  | ClearClick
  | KeyDown (key : string)
  | RecentClick (search : string)
  | Focus
  | MouseDown (inside : bool).

Definition handle (p : Props) (ev : Event) (st : State) : State :=
  match ev with
  | Change text => handleChange p text st
  | ClearClick => handleClear p st
  | KeyDown key => handleKeyDown p key st
  | RecentClick search => handleRecentClick p search st
  | Focus => handleFocus p st
  | MouseDown inside => handleClickOutside inside st
  end.

Definition run (p : Props) (events : list Event) (st : State) : State :=
  fold_left (fun st ev => handle p ev st) events st.

(** The calls a handler may make under props [p]: a callback that is
    given; [onChange] in the controlled mode only; [onSearch] with the
    empty text only. *)
Definition allowedCall (p : Props) (c : Call) : bool :=
  match c with
  | OnChange _ => isControlled p && onChange p
  | OnSearch v => onSearch p && isEmpty v
  | OnRecentSearchClick _ => onRecentSearchClick p
  | Blur => true
  end.

(** [a.includes(v)] on an array of strings. *)
Definition includes (l : list string) (v : string) : bool :=
  existsb (String.eqb v) l.

(** The list update of the demo's [handleSearch], made when its timeout
    fires: [captured] is the recent list the handler saw when it was
    called, [current] the list in the state when the timeout fires. *)
Definition demoRecentSearches (searched : string) (captured current : list string)
    : list string :=
  if negb (isEmpty searched) && negb (includes captured searched)
  then searched :: JS.slice0 captured 4
  else current.

End SearchInput.

(* ================================================================== *)
(** ** Vocabulary of the specification *)
(* ================================================================== *)

(** The hexadecimal digits, in both cases. *)
Definition HexDigit (c : ascii) : Prop :=
  In c (list_ascii_of_string "0123456789abcdefABCDEF").

(** [ds] is exactly six hexadecimal digits. *)
Definition SixHexDigits (ds : string) : Prop :=
  String.length ds = 6%nat /\ Forall HexDigit (list_ascii_of_string ds).

(** [s] is ['#'] followed by exactly six hexadecimal digits. *)
Definition HashHex6 (s : string) : Prop :=
  exists ds, s = String "#" ds /\ SixHexDigits ds.

(** The three channels that six digits [RRGGBB] denote. *)
Definition channelsOf (ds : string) : RGB :=
  {| r := JS.parseInt16 (substring 0 2 ds);
     g := JS.parseInt16 (substring 2 2 ds);
     b := JS.parseInt16 (substring 4 2 ds) |}.

(** [k] is the integer nearest to the binary64 value [x], the upper one
    of the two when [x] lies half way: with [x = n * 2^e],
    [k - 1/2 <= x < k + 1/2]. *)
Definition NearestInteger (x : float) (k : Z) : Prop :=
  match Prim2SF x with
  | S754_finite sg m e =>
      let n := if sg then Z.neg m else Z.pos m in
      if 0 <=? e then k = n * 2 ^ e
      else (2 * k - 1) * 2 ^ (- e) <= 2 * n < (2 * k + 1) * 2 ^ (- e)
  | S754_zero _ => k = 0
  | _ => True
  end.

(** The recent-colour list invariant: no two entries equal ignoring case,
    and at most [max] entries. *)
Definition RecentInvariant (max : Z) (colors : list string) : Prop :=
  NoDup (map JS.toLowerCase colors) /\ Z.of_nat (List.length colors) <= max.

(** [record] as the specification words it: remove the entries equal to
    [color] ignoring case, prepend [color] in upper case, truncate to [max]
    entries; an invalid colour leaves the list as it is. *)
Definition record_spec (colors : list string) (color : string) (max : Z) : list string :=
  if isValidHex color
  then firstn (Z.to_nat max)
         (JS.toUpperCase color
            :: filter (fun c => negb (JS.eqIgnoreCase c color)) colors)
  else colors.

(* ================================================================== *)
(** ** The built-ins on examples *)
(* ================================================================== *)

Example Math_round_examples :
  JS.Math_round 0.5 = 1 /\ JS.Math_round 2.5 = 3 /\ JS.Math_round (-2.5) = -2
  /\ JS.Math_round 0x1.fffffffffffffp-2 = 0 /\ JS.Math_round 359.5 = 360
  /\ JS.Math_round 217.25 = 217 /\ JS.Math_round (-0.25) = 0.
Proof. repeat split; vm_compute; reflexivity. Qed.

Example toString16_examples :
  JS.toString16 0 = "0"%string /\ JS.toString16 10 = "a"%string
  /\ JS.toString16 255 = "ff"%string /\ JS.toString16 256 = "100"%string
  /\ JS.toString16 (-31) = "-1f"%string.
Proof. repeat split; reflexivity. Qed.

Example slice0_examples :
  JS.slice0 [1; 2; 3] 2 = [1; 2] /\ JS.slice0 [1; 2; 3] 5 = [1; 2; 3]
  /\ JS.slice0 [1; 2; 3] 0 = [] /\ JS.slice0 [1; 2; 3] (-1) = [1; 2]
  /\ JS.slice0 [1; 2; 3] (-7) = [].
Proof. repeat split; reflexivity. Qed.

Example case_examples :
  JS.toUpperCase "#3b82f6" = "#3B82F6"%string
  /\ JS.toLowerCase "#3B82F6" = "#3b82f6"%string
  /\ JS.eqIgnoreCase "#AbCdEf" "#aBcDeF" = true.
Proof. repeat split; reflexivity. Qed.

(* ================================================================== *)
(** ** Characters and digits *)
(* ================================================================== *)

Ltac each_ascii c :=
  destruct c as [[] [] [] [] [] [] [] []].

Lemma class_afd_is_09AF (c : ascii) : class_afd_i c = class_09AF_i c.
Proof.
  unfold class_afd_i, class_09AF_i.
  destruct (JS.inRange 97 102 c), (JS.inRange 65 70 c), (JS.inRange 48 57 c);
    reflexivity.
Qed.

Lemma class_09AF_HexDigit (c : ascii) : class_09AF_i c = true <-> HexDigit c.
Proof.
  split.
  - intros H. each_ascii c; try discriminate H; vm_compute; tauto.
  - intros H. unfold HexDigit in H. simpl in H.
    repeat (destruct H as [H | H]; [subst c; reflexivity |]).
    contradiction.
Qed.

Lemma HexDigit_not_hash (c : ascii) : HexDigit c -> c <> "#"%char.
Proof.
  intros H E. subst c. apply class_09AF_HexDigit in H. discriminate H.
Qed.

Lemma hexDigitValue_table :
  map JS.hexDigitValue (list_ascii_of_string "0123456789abcdefABCDEF")
  = [0; 1; 2; 3; 4; 5; 6; 7; 8; 9; 10; 11; 12; 13; 14; 15; 10; 11; 12; 13; 14; 15].
Proof. reflexivity. Qed.

Lemma hexDigitValue_range (c : ascii) : 0 <= JS.hexDigitValue c < 16.
Proof. each_ascii c; vm_compute; split; congruence. Qed.

Lemma hexDigitOf_value (c : ascii) :
  class_09AF_i c = true -> JS.hexDigitOf (JS.hexDigitValue c) = JS.toLowerChar c.
Proof. intros H. each_ascii c; try discriminate H; reflexivity. Qed.

Lemma toLower_toUpper_char (c : ascii) :
  JS.toLowerChar (JS.toUpperChar c) = JS.toLowerChar c.
Proof. each_ascii c; reflexivity. Qed.

Lemma toLower_toUpper (s : string) :
  JS.toLowerCase (JS.toUpperCase s) = JS.toLowerCase s.
Proof.
  induction s as [| c s IH]; simpl; [reflexivity |].
  unfold JS.toLowerCase, JS.toUpperCase in *. simpl.
  rewrite toLower_toUpper_char, IH. reflexivity.
Qed.

Lemma eqIgnoreCase_toUpper (c color : string) :
  JS.eqIgnoreCase c (JS.toUpperCase color) = JS.eqIgnoreCase c color.
Proof. unfold JS.eqIgnoreCase. rewrite toLower_toUpper. reflexivity. Qed.

Lemma class_toUpper_char (c : ascii) :
  class_09AF_i (JS.toUpperChar c) = class_09AF_i c.
Proof. each_ascii c; reflexivity. Qed.


(* ================================================================== *)
(** ** The validity test and the hex parser *)
(* ================================================================== *)

Lemma Forall_class_HexDigit (cs : list ascii) :
  forallb class_09AF_i cs = true <-> Forall HexDigit cs.
Proof.
  rewrite forallb_forall, Forall_forall.
  split; intros H c Hc; apply class_09AF_HexDigit; auto.
Qed.

Lemma forallb_afd_09AF (cs : list ascii) :
  forallb class_afd_i cs = forallb class_09AF_i cs.
Proof.
  induction cs as [| c cs IH]; simpl; [reflexivity |].
  rewrite class_afd_is_09AF, IH. reflexivity.
Qed.

(** A string of length six, taken apart. *)
Lemma length6_inv (ds : string) :
  String.length ds = 6%nat ->
  exists d1 d2 d3 d4 d5 d6,
    ds = String d1 (String d2 (String d3 (String d4 (String d5 (String d6 EmptyString))))).
Proof.
  intros H.
  do 6 (destruct ds as [| ? ds]; [discriminate H |]).
  destruct ds; [| discriminate H].
  repeat eexists.
Qed.

Lemma isValidHex_HashHex6 (s : string) : isValidHex s = true <-> HashHex6 s.
Proof.
  split.
  - intros H. destruct s as [| c0 s]; [discriminate H |].
    assert (c0 = "#"%char) as ->.
    { each_ascii c0; try discriminate H; reflexivity. }
    do 6 (destruct s as [| ? s]; [discriminate H |]).
    destruct s; [| discriminate H].
    eexists. split; [reflexivity |]. split; [reflexivity |].
    apply Forall_class_HexDigit. exact H.
  - intros (ds & -> & Hlen & Hds).
    destruct (length6_inv ds Hlen) as (d1 & d2 & d3 & d4 & d5 & d6 & ->).
    apply Forall_class_HexDigit in Hds. exact Hds.
Qed.

Lemma isValidHex_false_iff (s : string) : isValidHex s = false <-> ~ HashHex6 s.
Proof.
  rewrite <- isValidHex_HashHex6. destruct (isValidHex s); split; intros H.
  - discriminate H.
  - exfalso. apply H. reflexivity.
  - discriminate.
  - reflexivity.
Qed.

Lemma withoutHash_hash (rest : string) : withoutHash (String "#" rest) = rest.
Proof. reflexivity. Qed.

Lemma withoutHash_other (c : ascii) (rest : string) :
  c <> "#"%char -> withoutHash (String c rest) = String c rest.
Proof. intros H. each_ascii c; try reflexivity. contradiction H. reflexivity. Qed.

Lemma isValidHex_toUpper (c : string) :
  isValidHex c = true -> isValidHex (JS.toUpperCase c) = true.
Proof.
  intros Hc.
  apply isValidHex_HashHex6 in Hc. destruct Hc as (ds & -> & Hlen & Hds).
  destruct (length6_inv ds Hlen) as (d1 & d2 & d3 & d4 & d5 & d6 & ->).
  apply Forall_class_HexDigit in Hds. cbn [list_ascii_of_string] in Hds.
  cbn. rewrite !class_toUpper_char. exact Hds.
Qed.

Lemma hexToRgb_body (hex : string) :
  hexToRgb hex =
  match withoutHash hex with
  | String a1 (String a2 (String b1 (String b2 (String c1
      (String c2 EmptyString))))) =>
      if forallb class_afd_i [a1; a2; b1; b2; c1; c2]
      then Some (channelsOf (withoutHash hex))
      else None
  | _ => None
  end.
Proof.
  unfold hexToRgb.
  destruct (withoutHash hex) as [| a1 [| a2 [| b1 [| b2 [| c1 [| c2 [| ? ?]]]]]]];
    reflexivity.
Qed.

Lemma hexToRgb_digits (ds : string) :
  SixHexDigits ds -> hexToRgb ds = Some (channelsOf ds) /\ hexToRgb (String "#" ds) = Some (channelsOf ds).
Proof.
  intros [Hlen Hds].
  destruct (length6_inv ds Hlen) as (d1 & d2 & d3 & d4 & d5 & d6 & ->).
  assert (d1 <> "#"%char) as Hd1.
  { apply HexDigit_not_hash. inversion Hds; assumption. }
  apply Forall_class_HexDigit in Hds. rewrite <- forallb_afd_09AF in Hds.
  cbn [list_ascii_of_string] in Hds.
  split.
  - rewrite hexToRgb_body, withoutHash_other by exact Hd1. rewrite Hds. reflexivity.
  - rewrite hexToRgb_body, withoutHash_hash. rewrite Hds. reflexivity.
Qed.

Lemma hexToRgb_Some_inv (s : string) (rgb : RGB) :
  hexToRgb s = Some rgb ->
  exists ds, (s = String "#" ds \/ s = ds) /\ SixHexDigits ds /\ rgb = channelsOf ds.
Proof.
  rewrite hexToRgb_body. intros H.
  exists (withoutHash s).
  destruct (withoutHash s)
    as [| a1 [| a2 [| b1 [| b2 [| c1 [| c2 [| ? ?]]]]]]] eqn:Hbody;
    try discriminate H.
  destruct (forallb class_afd_i [a1; a2; b1; b2; c1; c2]) eqn:Hds; [| discriminate H].
  rewrite forallb_afd_09AF in Hds. apply Forall_class_HexDigit in Hds.
  repeat split.
  - destruct s as [| c0 rest]; [discriminate Hbody |].
    destruct (ascii_dec c0 "#") as [-> | Hne].
    + left. rewrite withoutHash_hash in Hbody. rewrite Hbody. reflexivity.
    + right. rewrite withoutHash_other in Hbody by exact Hne. exact Hbody.
  - exact Hds.
  - congruence.
Qed.

Lemma parseInt16_pair (c1 c2 : ascii) :
  JS.parseInt16 (String c1 (String c2 EmptyString))
  = 16 * JS.hexDigitValue c1 + JS.hexDigitValue c2.
Proof. unfold JS.parseInt16. simpl. lia. Qed.

Lemma parseInt16_pair_range (c1 c2 : ascii) :
  0 <= JS.parseInt16 (String c1 (String c2 EmptyString)) <= 255.
Proof.
  rewrite parseInt16_pair.
  pose proof (hexDigitValue_range c1). pose proof (hexDigitValue_range c2). lia.
Qed.

Lemma channelsOf_range (ds : string) :
  String.length ds = 6%nat ->
  0 <= r (channelsOf ds) <= 255 /\ 0 <= g (channelsOf ds) <= 255
  /\ 0 <= b (channelsOf ds) <= 255.
Proof.
  intros Hlen.
  destruct (length6_inv ds Hlen) as (d1 & d2 & d3 & d4 & d5 & d6 & ->).
  unfold channelsOf. cbn [r g b substring].
  repeat split; apply parseInt16_pair_range.
Qed.

Lemma isValidHex_hexToRgb (s : string) :
  isValidHex s = true ->
  exists ds, s = String "#" ds /\ SixHexDigits ds /\ hexToRgb s = Some (channelsOf ds).
Proof.
  intros H. apply isValidHex_HashHex6 in H. destruct H as (ds & -> & Hds).
  exists ds. repeat split; try apply Hds. apply hexToRgb_digits. exact Hds.
Qed.

(** C4. [isValidHex] accepts a string exactly when it is ['#'] followed by
    six hexadecimal digits of either case.  [hexToRgb] returns a triple
    exactly for [#RRGGBB] and [RRGGBB], of either case, and the triple holds
    the three channels, each in [0 .. 255]; every other text gives [null]:
    the short form, a colour name, a colour with an alpha channel and
    non-hexadecimal digits among them. *)
Theorem hex_validity_and_parse :
  (forall s, isValidHex s = true <-> HashHex6 s)
  /\ (forall s rgb,
        hexToRgb s = Some rgb <->
        exists ds, (s = String "#" ds \/ s = ds) /\ SixHexDigits ds
                   /\ rgb = channelsOf ds)
  /\ (forall ds, SixHexDigits ds ->
        0 <= r (channelsOf ds) <= 255 /\ 0 <= g (channelsOf ds) <= 255
        /\ 0 <= b (channelsOf ds) <= 255)
  /\ (forall s, ~ HashHex6 s -> ~ SixHexDigits s -> hexToRgb s = None)
  /\ hexToRgb "#FFF" = None /\ hexToRgb "red" = None
  /\ hexToRgb "#FF000080" = None /\ hexToRgb "#GGHHII" = None
  /\ hexToRgb "#3b82F6" = Some (mkRGB 59 130 246)
  /\ hexToRgb "3B82f6" = Some (mkRGB 59 130 246).
Proof.
  split; [exact isValidHex_HashHex6 |].
  split.
  { intros s rgb. split; [apply hexToRgb_Some_inv |].
    intros (ds & [-> | ->] & Hds & ->); apply hexToRgb_digits; exact Hds. }
  split; [intros ds [Hlen _]; apply channelsOf_range; exact Hlen |].
  split.
  { intros s Hhash Hsix. destruct (hexToRgb s) as [rgb |] eqn:E; [| reflexivity].
    apply hexToRgb_Some_inv in E. destruct E as (ds & [-> | ->] & Hds & _).
    - exfalso. apply Hhash. exists ds. split; [reflexivity | exact Hds].
    - contradiction. }
  repeat split; reflexivity.
Qed.

(* ================================================================== *)
(** ** From RGB back to hex *)
(* ================================================================== *)

Lemma byte_in_range (v : Z) : 0 <= v <= 255 -> In v (map Z.of_nat (seq 0 256)).
Proof.
  intros H. apply in_map_iff. exists (Z.to_nat v). split; [lia |].
  apply in_seq. lia.
Qed.

(** The two digits [rgbToHex] writes for one channel. *)
Lemma padded_toString16 (v : Z) :
  0 <= v <= 255 ->
  (if (String.length (JS.toString16 v) =? 1)%nat
   then String "0" (JS.toString16 v) else JS.toString16 v)
  = String (JS.hexDigitOf (v / 16)) (String (JS.hexDigitOf (v mod 16)) EmptyString).
Proof.
  intros H. apply byte_in_range in H. revert v H. apply Forall_forall.
  assert (forallb
            (fun v => String.eqb
               (if (String.length (JS.toString16 v) =? 1)%nat
                then String "0" (JS.toString16 v) else JS.toString16 v)
               (String (JS.hexDigitOf (v / 16))
                  (String (JS.hexDigitOf (v mod 16)) EmptyString)))
            (map Z.of_nat (seq 0 256)) = true) as Hall by (vm_compute; reflexivity).
  rewrite forallb_forall in Hall. apply Forall_forall. intros v Hv.
  apply String.eqb_eq. apply Hall. exact Hv.
Qed.

Lemma padded_pair (c1 c2 : ascii) :
  class_09AF_i c1 = true -> class_09AF_i c2 = true ->
  let v := JS.parseInt16 (String c1 (String c2 EmptyString)) in
  (if (String.length (JS.toString16 v) =? 1)%nat
   then String "0" (JS.toString16 v) else JS.toString16 v)
  = String (JS.toLowerChar c1) (String (JS.toLowerChar c2) EmptyString).
Proof.
  intros H1 H2 v.
  rewrite padded_toString16 by apply parseInt16_pair_range.
  subst v. rewrite parseInt16_pair.
  pose proof (hexDigitValue_range c1) as R1. pose proof (hexDigitValue_range c2) as R2.
  replace ((16 * JS.hexDigitValue c1 + JS.hexDigitValue c2) / 16)
    with (JS.hexDigitValue c1) by (apply Z.div_unique with (r := JS.hexDigitValue c2); lia).
  replace ((16 * JS.hexDigitValue c1 + JS.hexDigitValue c2) mod 16)
    with (JS.hexDigitValue c2) by (apply Z.mod_unique with (q := JS.hexDigitValue c1); lia).
  rewrite !hexDigitOf_value by assumption. reflexivity.
Qed.

Lemma class_toLower_char (c : ascii) :
  class_09AF_i (JS.toLowerChar c) = class_09AF_i c.
Proof. each_ascii c; reflexivity. Qed.

Lemma toLower_idem_char (c : ascii) :
  JS.toLowerChar (JS.toLowerChar c) = JS.toLowerChar c.
Proof. each_ascii c; reflexivity. Qed.

Lemma toLower_idem (s : string) : JS.toLowerCase (JS.toLowerCase s) = JS.toLowerCase s.
Proof.
  unfold JS.toLowerCase.
  induction s as [| c s IH]; simpl; [reflexivity |].
  rewrite toLower_idem_char, IH. reflexivity.
Qed.

Lemma rgbToHex_hexToRgb (hex : string) :
  isValidHex hex = true ->
  exists rgb, hexToRgb hex = Some rgb
              /\ rgbToHex (r rgb) (g rgb) (b rgb) = JS.toLowerCase hex.
Proof.
  intros H.
  destruct (isValidHex_hexToRgb hex H) as (ds & -> & [Hlen Hds] & Hrgb).
  exists (channelsOf ds). split; [exact Hrgb |].
  destruct (length6_inv ds Hlen) as (d1 & d2 & d3 & d4 & d5 & d6 & ->).
  apply Forall_class_HexDigit in Hds. cbn [list_ascii_of_string forallb] in Hds.
  repeat (apply andb_prop in Hds; destruct Hds as [? Hds]).
  unfold rgbToHex, channelsOf. cbn [r g b substring map String.concat].
  rewrite !padded_pair by assumption. reflexivity.
Qed.

(** C10. For every string [hex] that is ['#'] followed by six hexadecimal
    digits, [hexToRgb hex] is not [null], and [rgbToHex] of its three
    channels is [hex] in lower case: a valid hex colour again, equal to
    [hex] when case is ignored. *)
Theorem hex_rgb_round_trip (hex : string) :
  HashHex6 hex ->
  exists rgb,
    hexToRgb hex = Some rgb
    /\ rgbToHex (r rgb) (g rgb) (b rgb) = JS.toLowerCase hex
    /\ isValidHex (rgbToHex (r rgb) (g rgb) (b rgb)) = true
    /\ JS.eqIgnoreCase (rgbToHex (r rgb) (g rgb) (b rgb)) hex = true.
Proof.
  intros Hhex. apply isValidHex_HashHex6 in Hhex.
  destruct (rgbToHex_hexToRgb hex Hhex) as (rgb & Hrgb & Hback).
  exists rgb. rewrite Hback. repeat split; try assumption.
  - apply isValidHex_HashHex6 in Hhex. destruct Hhex as (ds & -> & Hlen & Hds).
    destruct (length6_inv ds Hlen) as (d1 & d2 & d3 & d4 & d5 & d6 & ->).
    apply Forall_class_HexDigit in Hds. cbn [list_ascii_of_string] in Hds.
    cbn. rewrite !class_toLower_char. exact Hds.
  - unfold JS.eqIgnoreCase. rewrite toLower_idem. apply String.eqb_refl.
Qed.

Lemma hex_rgb_round_trip_witness :
  exists rgb,
    hexToRgb "#3B82f6" = Some rgb
    /\ rgbToHex (r rgb) (g rgb) (b rgb) = JS.toLowerCase "#3B82f6"
    /\ isValidHex (rgbToHex (r rgb) (g rgb) (b rgb)) = true
    /\ JS.eqIgnoreCase (rgbToHex (r rgb) (g rgb) (b rgb)) "#3B82f6" = true.
Proof.
  apply (hex_rgb_round_trip "#3B82f6").
  apply isValidHex_HashHex6. reflexivity.
Defined.

(* ================================================================== *)
(** ** The recent-colour list *)
(* ================================================================== *)

Lemma slice0_firstn {A : Type} (l : list A) (e : Z) :
  0 <= e -> JS.slice0 l e = firstn (Z.to_nat e) l.
Proof.
  intros He. unfold JS.slice0.
  destruct (e <? 0) eqn:Hneg; [lia |].
  destruct (Z.le_gt_cases e (Z.of_nat (List.length l))) as [Hle | Hgt].
  - rewrite Z.min_l by exact Hle. reflexivity.
  - rewrite Z.min_r by lia. rewrite Nat2Z.id, firstn_all.
    symmetry. apply firstn_all2. lia.
Qed.

Lemma slice0_is_firstn {A : Type} (l : list A) (e : Z) :
  exists k, JS.slice0 l e = firstn k l.
Proof. unfold JS.slice0. eexists. reflexivity. Qed.

Lemma slice0_length {A : Type} (l : list A) (e : Z) :
  0 <= e -> Z.of_nat (List.length (JS.slice0 l e)) <= e.
Proof.
  intros He. rewrite slice0_firstn by exact He.
  pose proof (firstn_le_length (Z.to_nat e) l).
  rewrite length_firstn. lia.
Qed.

Lemma NoDup_firstn {A : Type} (k : nat) (l : list A) :
  NoDup l -> NoDup (firstn k l).
Proof.
  revert k. induction l as [| a l IH]; intros [| k] Hl; simpl;
    try constructor.
  - inversion Hl as [| ? ? Hnotin Hrest]; subst.
    intros Hin. apply Hnotin.
    rewrite <- (firstn_skipn k l). apply in_or_app. left. exact Hin.
  - inversion Hl; subst. apply IH. assumption.
Qed.

Lemma NoDup_map_filter {A B : Type} (f : A -> B) (keep : A -> bool) (l : list A) :
  NoDup (map f l) -> NoDup (map f (filter keep l)).
Proof.
  induction l as [| a l IH]; simpl; intros Hl; [constructor |].
  inversion Hl as [| ? ? Hnotin Hrest]; subst.
  destruct (keep a); simpl; [| apply IH; exact Hrest].
  constructor; [| apply IH; exact Hrest].
  intros Hin. apply Hnotin.
  apply in_map_iff in Hin. destruct Hin as (x & Hx & Hxin).
  apply in_map_iff. exists x. split; [exact Hx |].
  apply filter_In in Hxin. apply Hxin.
Qed.

Lemma eqIgnoreCase_true (a b : string) :
  JS.eqIgnoreCase a b = true <-> JS.toLowerCase a = JS.toLowerCase b.
Proof. unfold JS.eqIgnoreCase. apply String.eqb_eq. Qed.

Lemma eqIgnoreCase_false (a b : string) :
  JS.eqIgnoreCase a b = false <-> JS.toLowerCase a <> JS.toLowerCase b.
Proof. unfold JS.eqIgnoreCase. apply String.eqb_neq. Qed.

Lemma eqIgnoreCase_refl (a : string) : JS.eqIgnoreCase a a = true.
Proof. apply eqIgnoreCase_true. reflexivity. Qed.

(** No entry that survives the filter equals [color] ignoring case. *)
Lemma filtered_not_color (color : string) (prev : list string) :
  ~ In (JS.toLowerCase color)
       (map JS.toLowerCase (filter (fun c => negb (JS.eqIgnoreCase c color)) prev)).
Proof.
  intros Hin. apply in_map_iff in Hin. destruct Hin as (x & Hx & Hxin).
  apply filter_In in Hxin. destruct Hxin as [_ Hkeep].
  apply negb_true_iff, eqIgnoreCase_false in Hkeep. congruence.
Qed.

Lemma filter_all {A : Type} (keep : A -> bool) (l : list A) :
  (forall x, In x l -> keep x = true) -> filter keep l = l.
Proof.
  induction l as [| a l IH]; simpl; intros H; [reflexivity |].
  rewrite (H a) by (left; reflexivity). f_equal. apply IH.
  intros x Hx. apply H. right. exact Hx.
Qed.

Lemma filter_none {A : Type} (keep : A -> bool) (l : list A) :
  (forall x, In x l -> keep x = false) -> filter keep l = [].
Proof.
  induction l as [| a l IH]; simpl; intros H; [reflexivity |].
  rewrite (H a) by (left; reflexivity). apply IH.
  intros x Hx. apply H. right. exact Hx.
Qed.

Lemma recentColors_updateRecentColors (p : Props) (color : string) (st : State) :
  recentColors (updateRecentColors p color st)
  = if isValidHex color
    then updatedRecentColors (maxRecentColors p) color (recentColors st)
    else recentColors st.
Proof. unfold updateRecentColors. destruct (isValidHex color); reflexivity. Qed.

Lemma updatedRecentColors_firstn (max : Z) (color : string) (prev : list string) :
  0 <= max ->
  updatedRecentColors max color prev
  = firstn (Z.to_nat max)
      (color :: filter (fun c => negb (JS.eqIgnoreCase c color)) prev).
Proof. intros H. unfold updatedRecentColors. apply slice0_firstn. exact H. Qed.

Lemma updatedRecentColors_NoDup (max : Z) (color : string) (prev : list string) :
  NoDup (map JS.toLowerCase prev) ->
  NoDup (map JS.toLowerCase (updatedRecentColors max color prev)).
Proof.
  intros Hprev. unfold updatedRecentColors.
  destruct (slice0_is_firstn
              (color :: filter (fun c => negb (JS.eqIgnoreCase c color)) prev) max)
    as [k ->].
  rewrite <- firstn_map. apply NoDup_firstn. simpl. constructor.
  - apply filtered_not_color.
  - apply NoDup_map_filter. exact Hprev.
Qed.

(** C2. Recording a string that is not ['#'] followed by exactly six
    hexadecimal digits changes nothing: [updateRecentColors] returns the
    state it was given (the same list, and nothing is written or notified),
    whatever the list and the bound. *)
Theorem record_invalid_is_noop (p : Props) (st : State) (s : string) :
  ~ HashHex6 s -> updateRecentColors p s st = st.
Proof.
  intros H. apply isValidHex_false_iff in H.
  unfold updateRecentColors. rewrite H. reflexivity.
Qed.

Lemma record_invalid_is_noop_witness :
  let p := mkProps false 6 FormatHex in
  let st := mkState "#3B82F6" "#3B82F6" ["#FF0000"; "#00FF00"]%string [] [] in
  updateRecentColors p "red" st = st
  /\ updateRecentColors p "#FFF" st = st
  /\ updateRecentColors p "#GGHHII" st = st
  /\ updateRecentColors p "" st = st.
Proof.
  intros p st.
  split; [| split; [| split]];
    apply record_invalid_is_noop; apply isValidHex_false_iff; reflexivity.
Defined.

Lemma firstn_app_firstn {A : Type} (k m : nat) (front rest : list A) :
  (k <= m)%nat -> firstn k (firstn m front ++ rest) = firstn k (front ++ rest).
Proof.
  revert m front. induction k as [| k IH]; intros m front Hkm; [reflexivity |].
  destruct m as [| m]; [lia |].
  destruct front as [| a front]; [reflexivity |].
  simpl. f_equal. apply IH. lia.
Qed.

Lemma recordAll_snoc (p : Props) (colors : list string) (color : string) (st : State) :
  recordAll p (colors ++ [color]) st = updateRecentColors p color (recordAll p colors st).
Proof. unfold recordAll. rewrite fold_left_app. reflexivity. Qed.

(** After recording one or more colours that are pairwise different
    ignoring case, the list starts with those colours, newest first, as
    far as the bound allows. *)
Lemma recordAll_prefix (p : Props) (first : string) (colors : list string) (st : State) :
  0 <= maxRecentColors p ->
  Forall (fun c => isValidHex c = true) (first :: colors) ->
  NoDup (map JS.toLowerCase (first :: colors)) ->
  exists rest,
    recentColors (recordAll p (first :: colors) st)
    = firstn (Z.to_nat (maxRecentColors p)) (rev (first :: colors) ++ rest).
Proof.
  intros Hmax. induction colors as [| color colors IH] using rev_ind; intros Hvalid Hdup.
  - inversion Hvalid as [| ? ? Hfirst _]; subst.
    exists (filter (fun c => negb (JS.eqIgnoreCase c first)) (recentColors st)).
    unfold recordAll. simpl fold_left.
    rewrite recentColors_updateRecentColors, Hfirst.
    apply updatedRecentColors_firstn. exact Hmax.
  - rewrite app_comm_cons in Hvalid, Hdup |- *.
    apply Forall_app in Hvalid. destruct Hvalid as [Hvalid Hcolor].
    inversion Hcolor as [| ? ? Hcolor' _]; subst.
    rewrite map_app in Hdup. simpl (map _ [color]) in Hdup.
    pose proof (NoDup_remove_2 _ _ _ Hdup) as Hnew. rewrite app_nil_r in Hnew.
    apply NoDup_remove_1 in Hdup. rewrite app_nil_r in Hdup.
    destruct (IH Hvalid Hdup) as [rest Hrest].
    rewrite recordAll_snoc, recentColors_updateRecentColors, Hcolor', Hrest.
    rewrite updatedRecentColors_firstn by exact Hmax.
    set (m := Z.to_nat (maxRecentColors p)).
    set (keep := fun c => negb (JS.eqIgnoreCase c color)).
    remember (rev (first :: colors)) as front eqn:Hfront.
    exists (filter keep (firstn (m - List.length front) rest)).
    rewrite rev_app_distr, <- Hfront. change (rev [color]) with [color].
    rewrite firstn_app, filter_app.
    rewrite (filter_all keep (firstn m front)).
    + destruct m as [| k]; [reflexivity |].
      cbn [app]. rewrite !firstn_cons. f_equal.
      apply firstn_app_firstn. lia.
    + intros x Hx. unfold keep. apply negb_true_iff, eqIgnoreCase_false.
      intros Heq. apply Hnew. rewrite <- Heq. apply in_map.
      apply in_rev. rewrite <- Hfront. rewrite <- (firstn_skipn m front).
      apply in_or_app. left. exact Hx.
Qed.

(** Recording at least [max] colours, pairwise different ignoring case,
    leaves exactly the [max] newest, newest first. *)
Lemma recordAll_full (p : Props) (colors : list string) (st : State) :
  1 <= maxRecentColors p ->
  Forall (fun c => isValidHex c = true) colors ->
  NoDup (map JS.toLowerCase colors) ->
  maxRecentColors p <= Z.of_nat (List.length colors) ->
  recentColors (recordAll p colors st)
  = firstn (Z.to_nat (maxRecentColors p)) (rev colors)
  /\ Z.of_nat (List.length (recentColors (recordAll p colors st))) = maxRecentColors p.
Proof.
  intros Hmax Hvalid Hdup Hlen.
  destruct colors as [| first colors]; [simpl in Hlen; lia |].
  destruct (recordAll_prefix p first colors st) as [rest Hrest];
    [lia | exact Hvalid | exact Hdup |].
  assert (recentColors (recordAll p (first :: colors) st)
          = firstn (Z.to_nat (maxRecentColors p)) (rev (first :: colors))) as Hfull.
  { rewrite Hrest, firstn_app.
    replace (Z.to_nat (maxRecentColors p) - List.length (rev (first :: colors)))%nat
      with 0%nat by (rewrite length_rev; lia).
    rewrite firstn_O, app_nil_r. reflexivity. }
  split; [exact Hfull |].
  rewrite Hfull, length_firstn, length_rev. lia.
Qed.

(** C1, as the code has it.  For every list, bound [max >= 1] and valid
    colour [c], [updateRecentColors] returns the list without the entries
    equal to [c] ignoring case, with [c] itself, as it was passed, in
    front, cut to [max] entries; this is the list the specification
    describes whenever [c] is already in upper case, as it is when
    [handleInputChange] or [handleNativePickerChange] makes the call.
    Recording at least [max] valid colours, pairwise different ignoring
    case, leaves exactly [max] entries: the [max] newest, newest first. *)
Theorem record_valid_color (p : Props) :
  1 <= maxRecentColors p ->
  (forall st c,
      isValidHex c = true ->
      recentColors (updateRecentColors p c st)
      = firstn (Z.to_nat (maxRecentColors p))
          (c :: filter (fun x => negb (JS.eqIgnoreCase x c)) (recentColors st))
      /\ (JS.toUpperCase c = c ->
          recentColors (updateRecentColors p c st)
          = record_spec (recentColors st) c (maxRecentColors p))
      /\ recentColors (updateRecentColors p (JS.toUpperCase c) st)
         = record_spec (recentColors st) c (maxRecentColors p))
  /\ (forall st colors,
        Forall (fun c => isValidHex c = true) colors ->
        NoDup (map JS.toLowerCase colors) ->
        maxRecentColors p <= Z.of_nat (List.length colors) ->
        recentColors (recordAll p colors st)
        = firstn (Z.to_nat (maxRecentColors p)) (rev colors)
        /\ Z.of_nat (List.length (recentColors (recordAll p colors st)))
           = maxRecentColors p).
Proof.
  intros Hmax. split.
  - intros st c Hc.
    assert (recentColors (updateRecentColors p c st)
            = firstn (Z.to_nat (maxRecentColors p))
                (c :: filter (fun x => negb (JS.eqIgnoreCase x c)) (recentColors st)))
      as Hcode.
    { rewrite recentColors_updateRecentColors, Hc.
      apply updatedRecentColors_firstn. lia. }
    split; [exact Hcode |]. split.
    + intros Hupper. rewrite Hcode. unfold record_spec. rewrite Hc, Hupper. reflexivity.
    + pose proof (isValidHex_toUpper c Hc) as Hup.
      rewrite recentColors_updateRecentColors, Hup.
      rewrite updatedRecentColors_firstn by lia.
      unfold record_spec. rewrite Hc. f_equal. f_equal.
      apply filter_ext. intros x. rewrite eqIgnoreCase_toUpper. reflexivity.
  - intros st colors Hvalid Hdup Hlen. apply recordAll_full; assumption.
Qed.

Lemma record_valid_color_witness :
  let p := mkProps false 2 FormatHex in
  let st := mkState "#3B82F6" "#3B82F6" ["#FF0000"; "#00ff00"; "#0000FF"]%string [] [] in
  recentColors (updateRecentColors p "#00FF00" st) = ["#00FF00"; "#FF0000"]%string.
Proof.
  intros p st.
  assert (1 <= maxRecentColors p) as Hmax by (simpl; lia).
  assert (isValidHex "#00FF00" = true) as Hc by reflexivity.
  exact (proj1 (proj1 (record_valid_color p Hmax) st "#00FF00"%string Hc)).
Defined.

(** C1, as the specification words it, fails for a valid colour written
    in lower case: the code puts ["#abcdef"] in front, the specification's
    [record] puts ["#ABCDEF"]. *)
Lemma record_keeps_case_as_passed :
  let p := mkProps false 6 FormatHex in
  let st := initialState "#3B82F6" in
  1 <= maxRecentColors p
  /\ isValidHex "#abcdef" = true
  /\ recentColors (updateRecentColors p "#abcdef" st) = ["#abcdef"%string]
  /\ record_spec (recentColors st) "#abcdef" (maxRecentColors p) = ["#ABCDEF"%string]
  /\ recentColors (updateRecentColors p "#abcdef" st)
     <> record_spec (recentColors st) "#abcdef" (maxRecentColors p).
Proof.
  intros p st.
  split; [simpl; lia |].
  do 3 (split; [reflexivity |]).
  vm_compute. discriminate.
Qed.

Lemma recent_after_valid (p : Props) (c : string) (st : State) :
  1 <= maxRecentColors p -> isValidHex c = true ->
  let after := recentColors (updateRecentColors p c st) in
  hd_error after = Some c
  /\ filter (fun x => JS.eqIgnoreCase x c) after = [c]
  /\ Z.of_nat (List.length after) <= maxRecentColors p.
Proof.
  intros Hmax Hc after. subst after.
  rewrite recentColors_updateRecentColors, Hc.
  split; [| split].
  - rewrite updatedRecentColors_firstn by lia.
    destruct (Z.to_nat (maxRecentColors p)) as [| k] eqn:Hk; [lia |]. reflexivity.
  - rewrite updatedRecentColors_firstn by lia.
    destruct (Z.to_nat (maxRecentColors p)) as [| k] eqn:Hk; [lia |].
    rewrite firstn_cons. simpl filter. rewrite eqIgnoreCase_refl. f_equal.
    apply filter_none. intros x Hx.
    assert (In x (filter (fun x => negb (JS.eqIgnoreCase x c)) (recentColors st))) as Hin.
    { rewrite <- (firstn_skipn k (filter _ _)). apply in_or_app. left. exact Hx. }
    apply filter_In in Hin. destruct Hin as [_ Hkeep].
    apply negb_true_iff in Hkeep. exact Hkeep.
  - apply slice0_length. lia.
Qed.

Lemma RecentInvariant_update (p : Props) (st : State) (c : string) :
  RecentInvariant (maxRecentColors p) (recentColors st) ->
  RecentInvariant (maxRecentColors p) (recentColors (updateRecentColors p c st)).
Proof.
  intros [Hdup Hlen]. rewrite recentColors_updateRecentColors.
  destruct (isValidHex c); [| split; assumption].
  split.
  - apply updatedRecentColors_NoDup. exact Hdup.
  - apply slice0_length. lia.
Qed.

(** C3, as the code has it.  [updateRecentColors] preserves the invariant
    of the recent list (no two entries equal ignoring case, at most [max]
    entries), for every list, string and bound.  When the bound is at
    least 1, recording valid colours [c1], [c2], [c1], with [c1] and [c2]
    different ignoring case, from any starting list gives a list that
    starts with [c1], holds [c1] once and has at most [max] entries. *)
Theorem recent_invariant_preserved :
  (forall p st c,
      RecentInvariant (maxRecentColors p) (recentColors st) ->
      RecentInvariant (maxRecentColors p) (recentColors (updateRecentColors p c st)))
  /\ (forall p st c1 c2,
        1 <= maxRecentColors p ->
        isValidHex c1 = true -> isValidHex c2 = true ->
        JS.eqIgnoreCase c1 c2 = false ->
        let after := recentColors (recordAll p [c1; c2; c1] st) in
        hd_error after = Some c1
        /\ filter (fun x => JS.eqIgnoreCase x c1) after = [c1]
        /\ Z.of_nat (List.length after) <= maxRecentColors p).
Proof.
  split.
  - exact RecentInvariant_update.
  - intros p st c1 c2 Hmax H1 H2 Hne.
    change (recordAll p [c1; c2; c1] st)
      with (updateRecentColors p c1 (recordAll p [c1; c2] st)).
    apply recent_after_valid; assumption.
Qed.

Lemma recent_invariant_preserved_witness :
  let p := mkProps false 2 FormatHex in
  let st := mkState "#3B82F6" "#3B82F6" ["#0000FF"; "#00ff00"]%string [] [] in
  let c1 := "#FF0000"%string in
  let c2 := "#00FF00"%string in
  RecentInvariant 2 (recentColors (updateRecentColors p c2 st))
  /\ hd_error (recentColors (recordAll p [c1; c2; c1] st)) = Some c1
  /\ filter (fun x => JS.eqIgnoreCase x c1) (recentColors (recordAll p [c1; c2; c1] st))
     = [c1]
  /\ Z.of_nat (List.length (recentColors (recordAll p [c1; c2; c1] st))) <= 2.
Proof.
  intros p st c1 c2.
  destruct recent_invariant_preserved as [Hkeep Hscenario].
  split.
  - apply (Hkeep p st c2). split.
    + repeat constructor; simpl; intuition discriminate.
    + simpl. lia.
  - apply (Hscenario p st c1 c2); try reflexivity. simpl. lia.
Defined.

(** C3, as stated for every bound, fails when the bound is 0: the list
    stays empty, so it does not start with [c1]. *)
Lemma recent_scenario_fails_at_bound_zero :
  let p := mkProps false 0 FormatHex in
  let st := initialState "#3B82F6" in
  let c1 := "#FF0000"%string in
  let c2 := "#00FF00"%string in
  isValidHex c1 = true /\ isValidHex c2 = true
  /\ JS.eqIgnoreCase c1 c2 = false
  /\ RecentInvariant (maxRecentColors p) (recentColors st)
  /\ recentColors (recordAll p [c1; c2; c1] st) = []
  /\ hd_error (recentColors (recordAll p [c1; c2; c1] st)) <> Some c1.
Proof.
  intros p st c1 c2.
  do 3 (split; [reflexivity |]).
  split; [split; [constructor | simpl; lia] |].
  split; [reflexivity |].
  vm_compute. discriminate.
Qed.

(* ================================================================== *)
(** ** The display formatter *)
(* ================================================================== *)

(** C6. For the stored colour ["#3B82F6"], [getFormattedColor] gives
    ["rgb(59, 130, 246)"] in the [rgb] format and ["hsl(217, 91%, 60%)"] in
    the [hsl] format; for ["#000000"] in the [hsl] format it gives
    ["hsl(0, 0%, 0%)"].  The strings are met exactly, which is within the
    tolerance of one unit per component. *)
Theorem formatted_color_examples
    (d : bool) (max : Z) (buffer : string) (recent notes : list string)
    (writes : list (list string)) :
  getFormattedColor (mkProps d max FormatRgb)
                    (mkState "#3B82F6" buffer recent notes writes)
  = "rgb(59, 130, 246)"%string
  /\ getFormattedColor (mkProps d max FormatHsl)
                       (mkState "#3B82F6" buffer recent notes writes)
     = "hsl(217, 91%, 60%)"%string
  /\ getFormattedColor (mkProps d max FormatHsl)
                       (mkState "#000000" buffer recent notes writes)
     = "hsl(0, 0%, 0%)"%string.
Proof. repeat split; vm_compute; reflexivity. Qed.

Lemma isValidHex_hexToHsl (c : string) :
  isValidHex c = true ->
  exists rgb, hexToRgb c = Some rgb /\ hexToHsl c = Some (hslOfRgb rgb).
Proof.
  intros H. destruct (isValidHex_hexToRgb c H) as (ds & _ & _ & Hrgb).
  exists (channelsOf ds). split; [exact Hrgb |].
  unfold hexToHsl. rewrite Hrgb. reflexivity.
Qed.

(** C7. When the stored colour passes the hex test, [getFormattedColor]
    returns it unchanged in the [hex] format, [rgb(r, g, b)] with the
    channels of [hexToRgb] in the [rgb] format and [hsl(h, s%, l%)] with the
    components of [hexToHsl] in the [hsl] format; when it fails the test,
    the stored colour is returned unchanged in every format. *)
Theorem formatted_color_cases (p : Props) (st : State) :
  (isValidHex (currentColor st) = true ->
   exists rgb hsl,
     hexToRgb (currentColor st) = Some rgb
     /\ hexToHsl (currentColor st) = Some hsl
     /\ getFormattedColor p st =
        match format p with
        | FormatHex => currentColor st
        | FormatRgb =>
            ("rgb(" ++ JS.numberToString (r rgb) ++ ", "
                    ++ JS.numberToString (g rgb) ++ ", "
                    ++ JS.numberToString (b rgb) ++ ")")%string
        | FormatHsl =>
            ("hsl(" ++ JS.numberToString (h hsl) ++ ", "
                    ++ JS.numberToString (s hsl) ++ "%, "
                    ++ JS.numberToString (l hsl) ++ "%)")%string
        end)
  /\ (isValidHex (currentColor st) = false -> getFormattedColor p st = currentColor st).
Proof.
  split; intros H.
  - destruct (isValidHex_hexToHsl _ H) as (rgb & Hrgb & Hhsl).
    exists rgb, (hslOfRgb rgb). split; [exact Hrgb |]. split; [exact Hhsl |].
    unfold getFormattedColor. rewrite H, Hrgb, Hhsl. reflexivity.
  - unfold getFormattedColor. rewrite H. reflexivity.
Qed.

Lemma formatted_color_cases_witness :
  getFormattedColor (mkProps false 6 FormatHsl) (initialState "tomato") = "tomato"%string
  /\ exists rgb hsl,
       hexToRgb "#3B82F6" = Some rgb
       /\ hexToHsl "#3B82F6" = Some hsl
       /\ getFormattedColor (mkProps false 6 FormatRgb) (initialState "#3B82F6")
          = ("rgb(" ++ JS.numberToString (r rgb) ++ ", "
                    ++ JS.numberToString (g rgb) ++ ", "
                    ++ JS.numberToString (b rgb) ++ ")")%string.
Proof.
  split.
  - exact (proj2 (formatted_color_cases (mkProps false 6 FormatHsl)
                    (initialState "tomato")) eq_refl).
  - exact (proj1 (formatted_color_cases (mkProps false 6 FormatRgb)
                    (initialState "#3B82F6")) eq_refl).
Defined.

(* ================================================================== *)
(** ** Loading the recent colours *)
(* ================================================================== *)

Section LoadFacts.

Variable getItem : string -> Completion (option string).
Variable parse : string -> Completion JSValue.

(** The key is absent: the list stays empty. *)
Lemma load_key_absent :
  getItem recentKey = Returns None -> load getItem parse = JArray [].
Proof. intros H. unfold load, loadRecentColors. rewrite H. reflexivity. Qed.

(** The key holds the empty string, which is falsy: the list stays
    empty. *)
Lemma load_empty_text :
  getItem recentKey = Returns (Some EmptyString) ->
  load getItem parse = JArray [].
Proof. intros H. unfold load, loadRecentColors. rewrite H. reflexivity. Qed.

(** The backend throws on read: the list stays empty. *)
Lemma load_read_throws :
  getItem recentKey = Throws -> load getItem parse = JArray [].
Proof. intros H. unfold load, loadRecentColors. rewrite H. reflexivity. Qed.

(** The decoder throws on the stored text: the list stays empty. *)
Lemma load_decode_throws (stored : string) :
  getItem recentKey = Returns (Some stored) ->
  parse stored = Throws ->
  load getItem parse = JArray [].
Proof.
  intros H Hparse. unfold load, loadRecentColors. rewrite H, Hparse.
  destruct (String.length stored =? 0)%nat; reflexivity.
Qed.

(** The decoder returns a value: that value becomes the state, whatever
    its shape. *)
Lemma load_decoded (stored : string) (v : JSValue) :
  getItem recentKey = Returns (Some stored) ->
  stored <> EmptyString ->
  parse stored = Returns v ->
  load getItem parse = v.
Proof.
  intros H Hne Hparse. unfold load, loadRecentColors. rewrite H, Hparse.
  destruct stored; [contradiction Hne; reflexivity | reflexivity].
Qed.

End LoadFacts.

(** The failures the load effect does absorb: with the key absent, with a
    read that throws, and with stored text that the decoder rejects, the
    recent list is the empty list. *)
Theorem load_failures_give_empty_list
    (getItem : string -> Completion (option string))
    (parse : string -> Completion JSValue) :
  getItem recentKey = Returns None
  \/ getItem recentKey = Throws
  \/ (exists stored, getItem recentKey = Returns (Some stored)
                     /\ parse stored = Throws) ->
  load getItem parse = JArray [].
Proof.
  intros [H | [H | (stored & H & Hparse)]].
  - apply load_key_absent. exact H.
  - apply load_read_throws. exact H.
  - apply (load_decode_throws getItem parse stored); assumption.
Qed.

Lemma load_failures_give_empty_list_witness :
  load (fun _ => Throws) (fun _ => Throws) = JArray []
  /\ load (fun _ => Returns None) (fun _ => Throws) = JArray []
  /\ load (fun _ => Returns (Some "[oops"%string)) (fun _ => Throws) = JArray [].
Proof.
  split; [| split].
  - apply load_failures_give_empty_list. right. left. reflexivity.
  - apply load_failures_give_empty_list. left. reflexivity.
  - apply load_failures_give_empty_list. right. right.
    exists "[oops"%string. split; reflexivity.
Defined.

(** C8, where the code departs from it.  When the key holds the text
    [null], which [JSON.parse] decodes to the value [null], the load effect
    makes that value the recent-colour state: the state is then not a list
    of strings, and not the empty list. *)
Theorem load_keeps_decoded_null
    (getItem : string -> Completion (option string))
    (parse : string -> Completion JSValue) :
  getItem recentKey = Returns (Some "null"%string) ->
  parse "null"%string = Returns JNull ->
  load getItem parse = JNull
  /\ isStringArray (load getItem parse) = false
  /\ load getItem parse <> JArray [].
Proof.
  intros Hget Hparse.
  rewrite (load_decoded getItem parse "null" JNull Hget) by (discriminate || exact Hparse).
  repeat split; discriminate.
Qed.

Lemma load_keeps_decoded_null_witness :
  let getItem := fun _ : string => Returns (Some "null"%string) in
  let parse := fun text : string =>
                 if String.eqb text "null" then Returns JNull else Throws in
  load getItem parse = JNull
  /\ isStringArray (load getItem parse) = false
  /\ load getItem parse <> JArray [].
Proof.
  intros getItem parse.
  apply (load_keeps_decoded_null getItem parse); reflexivity.
Defined.

(* ================================================================== *)
(** ** Typing into the text input *)
(* ================================================================== *)

(** [onChange] changes nothing but the notifications. *)
Lemma onChange_frame (p : Props) (v : string) (st : State) :
  currentColor (onChange p v st) = currentColor st
  /\ inputValue (onChange p v st) = inputValue st
  /\ recentColors (onChange p v st) = recentColors st
  /\ saved (onChange p v st) = saved st.
Proof. unfold onChange. destruct (onChangeGiven p); repeat split. Qed.

Lemma onChange_notified (p : Props) (v : string) (st : State) :
  notified (onChange p v st)
  = if onChangeGiven p then notified st ++ [v] else notified st.
Proof. unfold onChange. destruct (onChangeGiven p); reflexivity. Qed.

Lemma updateRecentColors_frame (p : Props) (c : string) (st : State) :
  currentColor (updateRecentColors p c st) = currentColor st
  /\ inputValue (updateRecentColors p c st) = inputValue st
  /\ notified (updateRecentColors p c st) = notified st.
Proof. unfold updateRecentColors. destruct (isValidHex c); repeat split. Qed.

Lemma updateRecentColors_saved (p : Props) (c : string) (st : State) :
  (recentColors (updateRecentColors p c st) = recentColors st
   /\ saved (updateRecentColors p c st) = saved st)
  \/ saved (updateRecentColors p c st)
     = saved st ++ [recentColors (updateRecentColors p c st)].
Proof.
  unfold updateRecentColors. destruct (isValidHex c); [right | left]; repeat split.
Qed.

(** With a bound of at least 1 the recorded colour stands in front of the
    entries that are kept. *)
Lemma updatedRecentColors_front (max : Z) (c : string) (prev : list string) :
  1 <= max ->
  updatedRecentColors max c prev
  = c :: firstn (Z.to_nat (max - 1))
           (filter (fun x => negb (JS.eqIgnoreCase x c)) prev).
Proof.
  intros Hmax. rewrite updatedRecentColors_firstn by lia.
  replace (Z.to_nat max) with (S (Z.to_nat (max - 1))) by lia. reflexivity.
Qed.

(** What [handleColorChange] does on an enabled component. *)
Lemma handleColorChange_enabled (p : Props) (c : string) (st : State) :
  disabled p = false ->
  currentColor (handleColorChange p c st) = c
  /\ inputValue (handleColorChange p c st) = c
  /\ notified (handleColorChange p c st)
     = (if onChangeGiven p then notified st ++ [c] else notified st)
  /\ recentColors (handleColorChange p c st)
     = (if isValidHex c
        then updatedRecentColors (maxRecentColors p) c (recentColors st)
        else recentColors st)
  /\ ((recentColors (handleColorChange p c st) = recentColors st
       /\ saved (handleColorChange p c st) = saved st)
      \/ saved (handleColorChange p c st)
         = saved st ++ [recentColors (handleColorChange p c st)]).
Proof.
  intros Hen. unfold handleColorChange. rewrite Hen.
  remember (onChange p c (setInputValue c (setCurrentColor c st))) as base eqn:Hbase.
  destruct (onChange_frame p c (setInputValue c (setCurrentColor c st)))
    as (Hc & Hi & Hr & Hs).
  pose proof (onChange_notified p c (setInputValue c (setCurrentColor c st))) as Hn.
  rewrite <- Hbase in Hc, Hi, Hr, Hs, Hn. cbn in Hc, Hi, Hr, Hs, Hn.
  destruct (updateRecentColors_frame p c base) as (Hc' & Hi' & Hn').
  split; [congruence |]. split; [congruence |]. split; [congruence |].
  split.
  - rewrite recentColors_updateRecentColors, Hr. reflexivity.
  - destruct (updateRecentColors_saved p c base) as [[H1 H2] | H];
      [left; split | right]; congruence.
Qed.

(** C9, as the code has it.  A keystroke whose text is not a complete
    valid hex colour changes the input buffer and nothing else: not the
    confirmed colour, not the notifications, not the recent list.  A
    keystroke whose text is a complete valid hex colour, on a component
    that is not disabled, makes its upper case the confirmed colour and,
    when [maxRecentColors] is at least 1, puts it at position 0 of the
    recent list, before the earlier entries that differ from it ignoring
    case, as many as the bound leaves room for. *)
Theorem text_input_keystroke (p : Props) (st : State) (text : string) :
  (isValidHex text = false ->
   handleInputChange p text st = setInputValue text st)
  /\ (isValidHex text = true -> disabled p = false ->
      currentColor (handleInputChange p text st) = JS.toUpperCase text
      /\ (1 <= maxRecentColors p ->
          recentColors (handleInputChange p text st)
          = JS.toUpperCase text
              :: firstn (Z.to_nat (maxRecentColors p - 1))
                   (filter (fun c => negb (JS.eqIgnoreCase c (JS.toUpperCase text)))
                      (recentColors st)))).
Proof.
  unfold handleInputChange.
  split; intros Htext; rewrite Htext; [reflexivity |].
  intros Hen.
  destruct (handleColorChange_enabled p (JS.toUpperCase text)
              (setInputValue text st) Hen) as (Hcur & _ & _ & Hrecent & _).
  split; [exact Hcur |].
  intros Hmax. rewrite Hrecent, (isValidHex_toUpper text Htext).
  apply updatedRecentColors_front. exact Hmax.
Qed.

Lemma text_input_keystroke_witness :
  let p := mkProps false 6 FormatHex in
  let st0 := initialState "#000000" in
  let st1 := handleInputChange p "#3b82f" st0 in
  let st2 := handleInputChange p "#3b82f6" st1 in
  st1 = setInputValue "#3b82f" st0
  /\ currentColor st2 = "#3B82F6"%string
  /\ recentColors st2 = ["#3B82F6"%string].
Proof.
  intros p st0 st1 st2.
  pose proof (text_input_keystroke p st0 "#3b82f") as [Hpartial _].
  pose proof (text_input_keystroke p st1 "#3b82f6") as [_ Hfull].
  split; [exact (Hpartial eq_refl) |].
  destruct (Hfull eq_refl eq_refl) as (Hcolor & Hrecent).
  split; [exact Hcolor |].
  apply Hrecent. simpl. lia.
Defined.

(** C9, as stated for every component, fails in two ways for the complete
    valid text ["#3b82f6"].  When [maxRecentColors] is 0 it becomes the
    confirmed colour, but the recent list stays empty and gains no entry
    at position 0.  When the component is disabled the handler fills the
    buffer and returns: the confirmed colour stays as it was. *)
Lemma keystroke_needs_bound_and_enabled :
  isValidHex "#3b82f6" = true
  /\ currentColor (handleInputChange (mkProps false 0 FormatHex) "#3b82f6"
                     (initialState "#000000")) = "#3B82F6"%string
  /\ recentColors (handleInputChange (mkProps false 0 FormatHex) "#3b82f6"
                     (initialState "#000000")) = []
  /\ hd_error (recentColors (handleInputChange (mkProps false 0 FormatHex) "#3b82f6"
                               (initialState "#000000")))
     <> Some (JS.toUpperCase "#3b82f6")
  /\ handleInputChange (mkProps true 6 FormatHex) "#3b82f6" (initialState "#000000")
     = setInputValue "#3b82f6" (initialState "#000000")
  /\ currentColor (handleInputChange (mkProps true 6 FormatHex) "#3b82f6"
                     (initialState "#000000"))
     <> JS.toUpperCase "#3b82f6".
Proof.
  do 3 (split; [reflexivity |]).
  split; [vm_compute; discriminate |].
  split; [reflexivity |].
  vm_compute. discriminate.
Qed.

(* ================================================================== *)
(** ** The HSL conversion *)
(* ================================================================== *)

Lemma digits2_pos_bound (m : positive) : Z.pos m < 2 ^ Z.pos (digits2_pos m).
Proof.
  induction m as [m IH | m IH |]; cbn [digits2_pos].
  - rewrite Pos2Z.inj_succ, Z.pow_succ_r by lia. lia.
  - rewrite Pos2Z.inj_succ, Z.pow_succ_r by lia. lia.
  - reflexivity.
Qed.

(** The mantissa of a binary64 value has at most 53 bits. *)
Lemma valid_mantissa_bound (sg : bool) (m : positive) (e : Z) :
  valid_binary (S754_finite sg m e) = true -> Z.pos m < 2 ^ 53.
Proof.
  unfold valid_binary, bounded, canonical_mantissa, fexp.
  intros H. apply andb_prop in H. destruct H as [H _].
  apply Z.eqb_eq in H.
  assert (Z.pos (digits2_pos m) <= 53) as Hd by (unfold FloatOps.prec in H; lia).
  apply Z.lt_le_trans with (1 := digits2_pos_bound m).
  apply Z.pow_le_mono_r; lia.
Qed.

Lemma pow2_succ (j : Z) : 0 < j -> 2 ^ j = 2 * 2 ^ (j - 1).
Proof.
  intros Hj. replace j with (Z.succ (j - 1)) at 1 by lia.
  apply Z.pow_succ_r. lia.
Qed.

(** [Math.round] returns the nearest integer, the upper one on a tie. *)
Lemma Math_round_nearest (x : float) : NearestInteger x (JS.Math_round x).
Proof.
  unfold NearestInteger, JS.Math_round.
  destruct (Prim2SF x) as [sg | sg | | sg m e]; try exact I; try reflexivity.
  cbv zeta. destruct (0 <=? e) eqn:Hsign; [reflexivity |].
  apply Z.leb_gt in Hsign.
  set (n := if sg then Z.neg m else Z.pos m).
  set (j := - e).
  assert (0 < 2 ^ j) as Hpow by (apply Z.pow_pos_nonneg; lia).
  replace (j + 1) with (Z.succ j) by lia. rewrite Z.pow_succ_r by lia.
  pose proof (Z.div_mod (2 * n + 2 ^ j) (2 * 2 ^ j) ltac:(lia)) as Hdm.
  pose proof (Z.mod_pos_bound (2 * n + 2 ^ j) (2 * 2 ^ j) ltac:(lia)) as Hmod.
  nia.
Qed.

(** A value in [0 <= x < N + 1/2] rounds into [0 .. N]; the bound
    [N + 1/2] is given by its binary64 decoding [mB * 2^(-k)]. *)
Lemma Math_round_below (x bound : float) (N : Z) (mB : positive) (k : Z) :
  Prim2SF bound = S754_finite false mB (- k) ->
  0 < k -> Z.pos mB = (2 * N + 1) * 2 ^ (k - 1) -> 2 ^ 52 <= Z.pos mB -> 0 <= N ->
  below bound x = true ->
  0 <= JS.Math_round x <= N.
Proof.
  intros HB Hk HmB Hnorm HN Hx.
  apply andb_prop in Hx. destruct Hx as [Hlo Hhi].
  rewrite leb_spec in Hlo. rewrite ltb_spec, HB in Hhi.
  pose proof (Prim2SF_valid x) as Hvalid.
  unfold JS.Math_round.
  destruct (Prim2SF x) as [sg | sg | | sg m e]; try lia.
  destruct sg; [discriminate Hlo |].
  apply valid_mantissa_bound in Hvalid.
  unfold SFltb, SFcompare in Hhi.
  assert (e <= - k /\ (e = - k -> Z.pos m < Z.pos mB)) as [He Hm].
  { destruct (Z.compare_spec e (- k)) as [Heq | Hlt | Hgt]; try discriminate Hhi.
    - split; [lia |]. intros _.
      destruct (Pos.compare_cont Eq m mB) eqn:Hc; try discriminate Hhi.
      exact Hc.
    - split; lia. }
  destruct (0 <=? e) eqn:Hsign; [lia |].
  set (j := - e) in *.
  assert (0 < 2 ^ (j - 1)) as Hpow by (apply Z.pow_pos_nonneg; lia).
  pose proof (pow2_succ j ltac:(lia)) as Hj.
  assert (2 ^ (j + 1) = 4 * 2 ^ (j - 1)) as Hj1.
  { replace (j + 1) with (Z.succ j) by lia. rewrite Z.pow_succ_r by lia. lia. }
  assert (Z.pos m < (2 * N + 1) * 2 ^ (j - 1)) as Hbound.
  { destruct (Z.eq_dec e (- k)) as [Heq | Hne].
    - replace j with k by lia. rewrite <- HmB. apply Hm. exact Heq.
    - assert (2 ^ k <= 2 ^ (j - 1)) as Hmono by (apply Z.pow_le_mono_r; lia).
      pose proof (pow2_succ k Hk) as Hk2.
      change (2 ^ 53) with (2 * 2 ^ 52) in Hvalid. nia. }
  rewrite Hj, Hj1. split.
  - apply Z.div_pos; lia.
  - apply Z.lt_succ_r. apply Z.div_lt_upper_bound; [lia |]. nia.
Qed.

Lemma Math_round_below_360 (x : float) :
  below 360.5 x = true -> 0 <= JS.Math_round x <= 360.
Proof.
  apply (Math_round_below x 360.5%float 360 (Z.to_pos (721 * 2 ^ 43)) 44);
    first [reflexivity | lia].
Qed.

Lemma Math_round_below_100 (x : float) :
  below 100.5 x = true -> 0 <= JS.Math_round x <= 100.
Proof.
  apply (Math_round_below x 100.5%float 100 (Z.to_pos (201 * 2 ^ 45)) 46);
    first [reflexivity | lia].
Qed.

(** Every triple of channel values passes the range check: all
    256 * 256 * 256 triples are evaluated. *)
Lemma hslInRange_all :
  forallb (fun r =>
    forallb (fun g =>
      forallb (fun b => hslInRange r g b) unitChannels) unitChannels) unitChannels
  = true.
Proof. vm_compute. reflexivity. Qed.

Lemma greyIsAchromatic_all : forallb greyIsAchromatic unitChannels = true.
Proof. vm_compute. reflexivity. Qed.

Lemma unitChannel_In (v : Z) : 0 <= v <= 255 -> In (unitChannel v) unitChannels.
Proof.
  intros H. unfold unitChannels. apply in_map_iff.
  exists (Z.to_nat v). split; [f_equal; lia | apply in_seq; lia].
Qed.

Lemma hslInRange_bytes (r g b : Z) :
  0 <= r <= 255 -> 0 <= g <= 255 -> 0 <= b <= 255 ->
  hslInRange (unitChannel r) (unitChannel g) (unitChannel b) = true.
Proof.
  intros Hr Hg Hb.
  pose proof hslInRange_all as Hall.
  rewrite forallb_forall in Hall. specialize (Hall _ (unitChannel_In r Hr)).
  rewrite forallb_forall in Hall. specialize (Hall _ (unitChannel_In g Hg)).
  rewrite forallb_forall in Hall. exact (Hall _ (unitChannel_In b Hb)).
Qed.

Lemma hslOfRgb_unit (rgb : RGB) :
  hslOfRgb rgb =
  let '(h0, s0, l0) :=
    hslOfUnit (unitChannel (r rgb)) (unitChannel (g rgb)) (unitChannel (b rgb)) in
  {| h := JS.Math_round (h0 * 360)%float;
     s := JS.Math_round (s0 * 100)%float;
     l := JS.Math_round (l0 * 100)%float |}.
Proof. reflexivity. Qed.

Lemma hslOfRgb_range (rgb : RGB) :
  0 <= r rgb <= 255 -> 0 <= g rgb <= 255 -> 0 <= b rgb <= 255 ->
  0 <= h (hslOfRgb rgb) <= 360
  /\ 0 <= s (hslOfRgb rgb) <= 100
  /\ 0 <= l (hslOfRgb rgb) <= 100.
Proof.
  intros Hr Hg Hb.
  pose proof (hslInRange_bytes _ _ _ Hr Hg Hb) as Hin.
  rewrite hslOfRgb_unit. unfold hslInRange in Hin.
  destruct (hslOfUnit (unitChannel (r rgb)) (unitChannel (g rgb)) (unitChannel (b rgb)))
    as [[h0 s0] l0].
  apply andb_prop in Hin. destruct Hin as [Hin Hl].
  apply andb_prop in Hin. destruct Hin as [Hh Hs].
  cbn [h s l]. split; [| split].
  - apply Math_round_below_360. exact Hh.
  - apply Math_round_below_100. exact Hs.
  - apply Math_round_below_100. exact Hl.
Qed.

Lemma hslOfRgb_nearest (rgb : RGB) :
  let '(h0, s0, l0) :=
    hslOfUnit (unitChannel (r rgb)) (unitChannel (g rgb)) (unitChannel (b rgb)) in
  NearestInteger (h0 * 360)%float (h (hslOfRgb rgb))
  /\ NearestInteger (s0 * 100)%float (s (hslOfRgb rgb))
  /\ NearestInteger (l0 * 100)%float (l (hslOfRgb rgb)).
Proof.
  rewrite hslOfRgb_unit.
  destruct (hslOfUnit (unitChannel (r rgb)) (unitChannel (g rgb)) (unitChannel (b rgb)))
    as [[h0 s0] l0].
  cbn [h s l]. repeat split; apply Math_round_nearest.
Qed.

Lemma hslOfRgb_achromatic (rgb : RGB) :
  PrimFloat.eqb
    (JS.Math_max3 (unitChannel (r rgb)) (unitChannel (g rgb)) (unitChannel (b rgb)))
    (JS.Math_min3 (unitChannel (r rgb)) (unitChannel (g rgb)) (unitChannel (b rgb)))
  = true ->
  h (hslOfRgb rgb) = 0 /\ s (hslOfRgb rgb) = 0.
Proof.
  intros Heq. rewrite hslOfRgb_unit. unfold hslOfUnit. rewrite Heq.
  cbn [negb h s l]. split; reflexivity.
Qed.

Lemma hslOfRgb_grey (rgb : RGB) :
  0 <= r rgb <= 255 -> r rgb = g rgb -> g rgb = b rgb ->
  h (hslOfRgb rgb) = 0 /\ s (hslOfRgb rgb) = 0.
Proof.
  intros Hr Hrg Hgb. apply hslOfRgb_achromatic.
  rewrite <- Hgb, <- Hrg.
  pose proof greyIsAchromatic_all as Hall. rewrite forallb_forall in Hall.
  exact (Hall _ (unitChannel_In _ Hr)).
Qed.

(** C5, as the code has it.  For every valid 6-digit hex colour (with
    its ['#'], or without it, which [hexToHsl] accepts too), [hexToHsl]
    returns a hue that is an integer in the range 0..360 and a
    saturation and a lightness that are integers in the range 0..100, each
    the nearest integer to the scaled component; and whenever the maximal
    and the minimal normalized channel coincide, in particular when the three
    channels are equal, hue and saturation are both 0. *)
Theorem hsl_components_in_range (hex : string) :
  HashHex6 hex \/ SixHexDigits hex ->
  exists rgb hsl,
    hexToRgb hex = Some rgb /\ hexToHsl hex = Some hsl
    /\ 0 <= h hsl <= 360 /\ 0 <= s hsl <= 100 /\ 0 <= l hsl <= 100
    /\ (let '(h0, s0, l0) :=
          hslOfUnit (unitChannel (r rgb)) (unitChannel (g rgb)) (unitChannel (b rgb)) in
        NearestInteger (h0 * 360)%float (h hsl)
        /\ NearestInteger (s0 * 100)%float (s hsl)
        /\ NearestInteger (l0 * 100)%float (l hsl))
    /\ (PrimFloat.eqb
          (JS.Math_max3 (unitChannel (r rgb)) (unitChannel (g rgb)) (unitChannel (b rgb)))
          (JS.Math_min3 (unitChannel (r rgb)) (unitChannel (g rgb)) (unitChannel (b rgb)))
        = true ->
        h hsl = 0 /\ s hsl = 0)
    /\ (r rgb = g rgb -> g rgb = b rgb -> h hsl = 0 /\ s hsl = 0).
Proof.
  intros Hhex.
  assert (exists ds, String.length ds = 6%nat /\ hexToRgb hex = Some (channelsOf ds))
    as (ds & Hlen & Hrgb).
  { destruct Hhex as [(ds & -> & Hds) | Hds].
    - exists ds. split; [apply Hds | apply hexToRgb_digits; exact Hds].
    - exists hex. split; [apply Hds | apply hexToRgb_digits; exact Hds]. }
  destruct (channelsOf_range ds Hlen) as (Hr & Hg & Hb).
  exists (channelsOf ds), (hslOfRgb (channelsOf ds)).
  split; [exact Hrgb |].
  split; [unfold hexToHsl; rewrite Hrgb; reflexivity |].
  destruct (hslOfRgb_range (channelsOf ds) Hr Hg Hb) as (Hh & Hs & Hl).
  split; [exact Hh |]. split; [exact Hs |]. split; [exact Hl |].
  split; [apply hslOfRgb_nearest |].
  split; [apply hslOfRgb_achromatic |].
  apply hslOfRgb_grey. exact Hr.
Qed.

Lemma hsl_components_in_range_witness :
  exists rgb hsl,
    hexToRgb "#3B82F6" = Some rgb /\ hexToHsl "#3B82F6" = Some hsl
    /\ 0 <= h hsl <= 360 /\ 0 <= s hsl <= 100 /\ 0 <= l hsl <= 100
    /\ (let '(h0, s0, l0) :=
          hslOfUnit (unitChannel (r rgb)) (unitChannel (g rgb)) (unitChannel (b rgb)) in
        NearestInteger (h0 * 360)%float (h hsl)
        /\ NearestInteger (s0 * 100)%float (s hsl)
        /\ NearestInteger (l0 * 100)%float (l hsl))
    /\ (PrimFloat.eqb
          (JS.Math_max3 (unitChannel (r rgb)) (unitChannel (g rgb)) (unitChannel (b rgb)))
          (JS.Math_min3 (unitChannel (r rgb)) (unitChannel (g rgb)) (unitChannel (b rgb)))
        = true ->
        h hsl = 0 /\ s hsl = 0)
    /\ (r rgb = g rgb -> g rgb = b rgb -> h hsl = 0 /\ s hsl = 0).
Proof.
  apply (hsl_components_in_range "#3B82F6").
  left. apply isValidHex_HashHex6. reflexivity.
Defined.

(** C5, as stated with hues up to 359, fails for the valid colour
    ["#FF0001"]: the hue before rounding is about 359.76 degrees, and it
    is rounded to 360. *)
Lemma hue_of_FF0001_is_360 :
  isValidHex "#FF0001" = true
  /\ hexToHsl "#FF0001" = Some {| h := 360; s := 100; l := 50 |}
  /\ ~ (exists hsl, hexToHsl "#FF0001" = Some hsl /\ 0 <= h hsl <= 359).
Proof.
  assert (hexToHsl "#FF0001" = Some {| h := 360; s := 100; l := 50 |}) as Hhsl
    by (vm_compute; reflexivity).
  split; [reflexivity |]. split; [exact Hhsl |].
  intros (hsl & Hsome & Hrange). rewrite Hhsl in Hsome.
  injection Hsome as <-. cbn [h] in Hrange. lia.
Qed.

(* ================================================================== *)
(** ** From RGB to hex and back *)
(* ================================================================== *)

Lemma string_length_append (a b : string) :
  String.length (a ++ b) = (String.length a + String.length b)%nat.
Proof. induction a as [| c a IH]; simpl; [reflexivity | rewrite IH; reflexivity]. Qed.

Lemma chars_append (a b : string) :
  list_ascii_of_string (a ++ b) = list_ascii_of_string a ++ list_ascii_of_string b.
Proof. induction a as [| c a IH]; simpl; [reflexivity | rewrite IH; reflexivity]. Qed.

Lemma hexDigitOf_facts (d : Z) :
  0 <= d < 16 ->
  class_09AF_i (JS.hexDigitOf d) = true /\ JS.hexDigitValue (JS.hexDigitOf d) = d.
Proof.
  intros H.
  assert (In d (map Z.of_nat (seq 0 16))) as Hin.
  { apply in_map_iff. exists (Z.to_nat d). split; [lia | apply in_seq; lia]. }
  simpl in Hin.
  repeat (destruct Hin as [<- | Hin]; [split; reflexivity |]).
  contradiction.
Qed.

Lemma rgbToHex_padded (r g b : Z) :
  rgbToHex r g b = String "#" (padded r ++ padded g ++ padded b).
Proof. reflexivity. Qed.

Lemma padded_byte (v : Z) :
  0 <= v <= 255 ->
  padded v = String (JS.hexDigitOf (v / 16)) (String (JS.hexDigitOf (v mod 16)) EmptyString).
Proof. apply padded_toString16. Qed.

Lemma toHexDigits_length (fuel : nat) (n : Z) (acc : string) :
  (String.length acc + 1 <= String.length (JS.toHexDigits (S fuel) n acc))%nat.
Proof.
  revert n acc. induction fuel as [| fuel IH]; intros n acc.
  - simpl. destruct (n / 16 =? 0); simpl; lia.
  - change (JS.toHexDigits (S (S fuel)) n acc)
      with (if n / 16 =? 0 then String (JS.hexDigitOf (n mod 16)) acc
            else JS.toHexDigits (S fuel) (n / 16) (String (JS.hexDigitOf (n mod 16)) acc)).
    destruct (n / 16 =? 0); [simpl; lia |].
    specialize (IH (n / 16) (String (JS.hexDigitOf (n mod 16)) acc)).
    simpl String.length in IH at 1. lia.
Qed.

Lemma toString16_length (x : Z) : (1 <= String.length (JS.toString16 x))%nat.
Proof.
  unfold JS.toString16. destruct (x <? 0).
  - simpl. lia.
  - exact (toHexDigits_length (Z.to_nat (Z.log2 x)) x EmptyString).
Qed.

Lemma padded_length (x : Z) : (2 <= String.length (padded x))%nat.
Proof.
  unfold padded. cbv zeta. pose proof (toString16_length x) as H.
  destruct (String.length (JS.toString16 x) =? 1)%nat eqn:E.
  - simpl. lia.
  - apply Nat.eqb_neq in E. lia.
Qed.

(** A channel above 255 is written with three digits or more. *)
Lemma padded_large (x : Z) : 256 <= x -> (3 <= String.length (padded x))%nat.
Proof.
  intros Hx.
  assert (3 <= String.length (JS.toString16 x))%nat as H.
  { unfold JS.toString16. destruct (x <? 0) eqn:Hneg; [lia |].
    assert (8 <= Z.log2 x) as Hlog.
    { change 8 with (Z.log2 256). apply Z.log2_le_mono. exact Hx. }
    destruct (Z.to_nat (Z.log2 x)) as [| [| fuel]] eqn:Hfuel; try lia.
    change (JS.toHexDigits (S (S (S fuel))) x EmptyString)
      with (if x / 16 =? 0 then String (JS.hexDigitOf (x mod 16)) EmptyString
            else JS.toHexDigits (S (S fuel)) (x / 16)
                   (String (JS.hexDigitOf (x mod 16)) EmptyString)).
    assert (16 <= x / 16) as Hq by (apply Z.div_le_lower_bound; lia).
    destruct (x / 16 =? 0) eqn:E1; [lia |].
    change (JS.toHexDigits (S (S fuel)) (x / 16) ?acc)
      with (if x / 16 / 16 =? 0 then String (JS.hexDigitOf (x / 16 mod 16)) acc
            else JS.toHexDigits (S fuel) (x / 16 / 16)
                   (String (JS.hexDigitOf (x / 16 mod 16)) acc)).
    assert (1 <= x / 16 / 16) as Hq2 by (apply Z.div_le_lower_bound; lia).
    destruct (x / 16 / 16 =? 0) eqn:E2; [lia |].
    match goal with
    | |- (3 <= String.length (JS.toHexDigits (S fuel) ?n ?acc))%nat =>
        pose proof (toHexDigits_length fuel n acc) as Hlen
    end.
    simpl String.length in Hlen at 1. lia. }
  unfold padded. cbv zeta.
  destruct (String.length (JS.toString16 x) =? 1)%nat; simpl; lia.
Qed.

(** A negative channel is written with its minus sign. *)
Lemma padded_negative (x : Z) :
  x < 0 -> exists rest, padded x = String "-" rest.
Proof.
  intros Hx. unfold padded, JS.toString16. cbv zeta.
  destruct (x <? 0) eqn:Hneg; [| lia].
  pose proof (toHexDigits_length (Z.to_nat (Z.log2 (- x))) (- x) EmptyString) as H.
  destruct (String.length (String "-" _) =? 1)%nat eqn:E.
  - apply Nat.eqb_eq in E. cbn [String.length] in E, H. lia.
  - eexists. reflexivity.
Qed.

Lemma hexDigitOf_class (d : Z) :
  0 <= d < 16 -> class_09AF_i (JS.hexDigitOf d) = true.
Proof. intros H. apply hexDigitOf_facts. exact H. Qed.

Lemma hexDigitValue_hexDigitOf (d : Z) :
  0 <= d < 16 -> JS.hexDigitValue (JS.hexDigitOf d) = d.
Proof. intros H. apply hexDigitOf_facts. exact H. Qed.

Lemma hexDigitOf_lower (d : Z) :
  0 <= d < 16 -> JS.toLowerChar (JS.hexDigitOf d) = JS.hexDigitOf d.
Proof.
  intros H.
  assert (In d (map Z.of_nat (seq 0 16))) as Hin.
  { apply in_map_iff. exists (Z.to_nat d). split; [lia | apply in_seq; lia]. }
  simpl in Hin.
  repeat (destruct Hin as [<- | Hin]; [reflexivity |]).
  contradiction.
Qed.

Lemma HexDigit_minus : ~ HexDigit "-"%char.
Proof. intros H. apply class_09AF_HexDigit in H. discriminate H. Qed.

Lemma byte_digits (v : Z) :
  0 <= v <= 255 -> 0 <= v / 16 < 16 /\ 0 <= v mod 16 < 16.
Proof.
  intros Hv. split.
  - split; [apply Z.div_pos; lia | apply Z.div_lt_upper_bound; lia].
  - apply Z.mod_pos_bound. lia.
Qed.

Lemma rgbToHex_bytes (r g b : Z) :
  0 <= r <= 255 -> 0 <= g <= 255 -> 0 <= b <= 255 ->
  isValidHex (rgbToHex r g b) = true
  /\ hexToRgb (rgbToHex r g b) = Some (mkRGB r g b)
  /\ JS.toLowerCase (rgbToHex r g b) = rgbToHex r g b.
Proof.
  intros Hr Hg Hb.
  destruct (byte_digits r Hr) as [Hr1 Hr2].
  destruct (byte_digits g Hg) as [Hg1 Hg2].
  destruct (byte_digits b Hb) as [Hb1 Hb2].
  rewrite rgbToHex_padded, !padded_byte by assumption.
  cbn [append]. split; [| split].
  - cbn [isValidHex forallb].
    rewrite !hexDigitOf_class by assumption. reflexivity.
  - rewrite hexToRgb_body, withoutHash_hash. rewrite forallb_afd_09AF.
    cbn [forallb]. rewrite !hexDigitOf_class by assumption.
    cbn [andb]. unfold channelsOf. cbn [substring]. rewrite !parseInt16_pair.
    rewrite !hexDigitValue_hexDigitOf by assumption.
    f_equal. f_equal.
    + pose proof (Z.div_mod r 16 ltac:(lia)). lia.
    + pose proof (Z.div_mod g 16 ltac:(lia)). lia.
    + pose proof (Z.div_mod b 16 ltac:(lia)). lia.
  - unfold JS.toLowerCase. cbn [JS.mapString].
    rewrite !hexDigitOf_lower by assumption. reflexivity.
Qed.

Lemma rgbToHex_valid_bytes (r g b : Z) :
  isValidHex (rgbToHex r g b) = true ->
  0 <= r <= 255 /\ 0 <= g <= 255 /\ 0 <= b <= 255.
Proof.
  intros H. apply isValidHex_HashHex6 in H.
  destruct H as (ds & Heq & Hlen & Hds).
  rewrite rgbToHex_padded in Heq. injection Heq as <-.
  rewrite !string_length_append in Hlen.
  rewrite !chars_append in Hds.
  apply Forall_app in Hds. destruct Hds as [Hr Hds].
  apply Forall_app in Hds. destruct Hds as [Hg Hb].
  pose proof (padded_length r). pose proof (padded_length g). pose proof (padded_length b).
  assert (forall v, (String.length (padded v) <= 2)%nat ->
            Forall HexDigit (list_ascii_of_string (padded v)) -> 0 <= v <= 255) as Hone.
  { intros v Hlen2 Hchars.
    destruct (Z.lt_ge_cases v 0) as [Hneg | Hpos].
    - destruct (padded_negative v Hneg) as [rest Hrest]. rewrite Hrest in Hchars.
      inversion Hchars as [| ? ? Hminus _]; subst. contradiction (HexDigit_minus Hminus).
    - destruct (Z.le_gt_cases 256 v) as [Hbig | Hsmall]; [| lia].
      pose proof (padded_large v Hbig). lia. }
  repeat split; apply Hone; assumption || lia.
Qed.

(** X2.  [rgbToHex] writes a valid hex colour exactly for channels in
    [0 .. 255]; it is then in lower case and [hexToRgb] reads the same
    channels back.  A channel outside the range is not clamped: the text
    gets a seventh digit or a minus sign and fails [isValidHex]. *)
Theorem rgbToHex_valid_iff_bytes (r g b : Z) :
  (isValidHex (rgbToHex r g b) = true
   <-> 0 <= r <= 255 /\ 0 <= g <= 255 /\ 0 <= b <= 255)
  /\ (0 <= r <= 255 /\ 0 <= g <= 255 /\ 0 <= b <= 255 ->
      hexToRgb (rgbToHex r g b) = Some (mkRGB r g b)
      /\ JS.toLowerCase (rgbToHex r g b) = rgbToHex r g b).
Proof.
  split; [split |].
  - apply rgbToHex_valid_bytes.
  - intros (Hr & Hg & Hb). apply rgbToHex_bytes; assumption.
  - intros (Hr & Hg & Hb). apply rgbToHex_bytes; assumption.
Qed.

(* ================================================================== *)
(** ** Parsing ignores case *)
(* ================================================================== *)

Lemma isValidHex_cons (c : ascii) (rest : string) :
  isValidHex (String c rest)
  = Ascii.eqb c "#"
    && match rest with
       | String d1 (String d2 (String d3 (String d4 (String d5
           (String d6 EmptyString))))) =>
           forallb class_09AF_i [d1; d2; d3; d4; d5; d6]
       | _ => false
       end.
Proof. each_ascii c; reflexivity. Qed.

Section CaseMap.

(** A map on code units that keeps the digit class, the digit values and
    the ['#']. *)
Variable f : ascii -> ascii.
Hypothesis f_class : forall c, class_09AF_i (f c) = class_09AF_i c.
Hypothesis f_value : forall c, JS.hexDigitValue (f c) = JS.hexDigitValue c.
Hypothesis f_hash : forall c, Ascii.eqb (f c) "#" = Ascii.eqb c "#".

Lemma withoutHash_mapString (s : string) :
  withoutHash (JS.mapString f s) = JS.mapString f (withoutHash s).
Proof.
  destruct s as [| c rest]; [reflexivity |]. cbn [JS.mapString].
  destruct (Ascii.eqb c "#") eqn:E.
  - pose proof (f_hash c) as Hf. rewrite E in Hf.
    apply Ascii.eqb_eq in E, Hf. rewrite Hf. subst c. reflexivity.
  - pose proof (f_hash c) as Hf. rewrite E in Hf.
    apply Ascii.eqb_neq in E, Hf.
    rewrite !withoutHash_other by assumption. reflexivity.
Qed.

Lemma hexToRgb_mapString (s : string) : hexToRgb (JS.mapString f s) = hexToRgb s.
Proof.
  unfold hexToRgb. rewrite withoutHash_mapString.
  destruct (withoutHash s) as [| a1 [| a2 [| b1 [| b2 [| c1 [| c2 [| ? ?]]]]]]];
    try reflexivity.
  cbn [JS.mapString]. rewrite !forallb_afd_09AF. cbn [forallb].
  rewrite !f_class, !parseInt16_pair, !f_value. reflexivity.
Qed.

Lemma isValidHex_mapString (s : string) : isValidHex (JS.mapString f s) = isValidHex s.
Proof.
  destruct s as [| c rest]; [reflexivity |]. cbn [JS.mapString].
  rewrite !isValidHex_cons, f_hash. f_equal.
  destruct rest as [| d1 [| d2 [| d3 [| d4 [| d5 [| d6 [| ? ?]]]]]]]; try reflexivity.
  cbn [JS.mapString forallb]. rewrite !f_class. reflexivity.
Qed.

End CaseMap.

Lemma toUpperChar_value (c : ascii) :
  JS.hexDigitValue (JS.toUpperChar c) = JS.hexDigitValue c.
Proof. each_ascii c; reflexivity. Qed.

Lemma toLowerChar_value (c : ascii) :
  JS.hexDigitValue (JS.toLowerChar c) = JS.hexDigitValue c.
Proof. each_ascii c; reflexivity. Qed.

Lemma toUpperChar_is_hash (c : ascii) :
  Ascii.eqb (JS.toUpperChar c) "#" = Ascii.eqb c "#".
Proof. each_ascii c; reflexivity. Qed.

Lemma toLowerChar_is_hash (c : ascii) :
  Ascii.eqb (JS.toLowerChar c) "#" = Ascii.eqb c "#".
Proof. each_ascii c; reflexivity. Qed.

(** X3.  The validity test and both parsers give the same result on a text
    and on its lower case, for every text of 8-bit code units, and the
    same result on a text and on its upper case, for every ASCII text
    (where [JS.toUpperCase] is the source's [toUpperCase]): a text that is
    rejected stays rejected and a text that is accepted gives the same
    channels and the same HSL triple. *)
Theorem parsing_ignores_case (s : string) :
  (isValidHex (JS.toLowerCase s) = isValidHex s
   /\ hexToRgb (JS.toLowerCase s) = hexToRgb s
   /\ hexToHsl (JS.toLowerCase s) = hexToHsl s)
  /\ (isAsciiText s = true ->
      isValidHex (JS.toUpperCase s) = isValidHex s
      /\ hexToRgb (JS.toUpperCase s) = hexToRgb s
      /\ hexToHsl (JS.toUpperCase s) = hexToHsl s).
Proof.
  pose proof (hexToRgb_mapString JS.toUpperChar class_toUpper_char
                toUpperChar_value toUpperChar_is_hash s) as Hup.
  pose proof (hexToRgb_mapString JS.toLowerChar class_toLower_char
                toLowerChar_value toLowerChar_is_hash s) as Hlow.
  split; [| intros _]; (split; [| split]).
  - apply isValidHex_mapString; [apply class_toLower_char | apply toLowerChar_is_hash].
  - exact Hlow.
  - unfold hexToHsl, JS.toLowerCase. rewrite Hlow. reflexivity.
  - apply isValidHex_mapString; [apply class_toUpper_char | apply toUpperChar_is_hash].
  - exact Hup.
  - unfold hexToHsl, JS.toUpperCase. rewrite Hup. reflexivity.
Qed.

Lemma parsing_ignores_case_witness :
  (isValidHex "#3B82F6" = isValidHex "#3b82f6"
   /\ hexToRgb "#3B82F6" = hexToRgb "#3b82f6"
   /\ hexToHsl "#3B82F6" = hexToHsl "#3b82f6")
  /\ (isValidHex "#3B82F" = isValidHex "#3b82f"
      /\ hexToRgb "#3B82F" = hexToRgb "#3b82f"
      /\ hexToHsl "#3B82F" = hexToHsl "#3b82f").
Proof.
  split.
  - exact (proj2 (parsing_ignores_case "#3b82f6") eq_refl).
  - exact (proj2 (parsing_ignores_case "#3b82f") eq_refl).
Defined.

(* ================================================================== *)
(** ** The handlers of the colour picker *)
(* ================================================================== *)

Lemma run_cons (p : Props) (ev : Event) (events : list Event) (st : State) :
  run p (ev :: events) st = run p events (handle p ev st).
Proof. reflexivity. Qed.

Lemma handle_disabled (p : Props) (ev : Event) (st : State) :
  disabled p = true ->
  handle p ev st = match ev with
                   | TextInput text => setInputValue text st
                   | _ => st
                   end.
Proof.
  intros Hd. destruct ev as [text | value | color]; cbn [handle].
  - unfold handleInputChange, handleColorChange. rewrite Hd.
    destruct (isValidHex text); reflexivity.
  - unfold handleNativePickerChange, handleColorChange. rewrite Hd. reflexivity.
  - unfold handlePresetClick. rewrite Hd. reflexivity.
Qed.

(** The state [handleColorChange] hands to [updateRecentColors]. *)
Ltac confirmed_base :=
  eexists _, _; split; [reflexivity |];
  match goal with
  | |- context [onChange ?p ?c ?s] =>
      destruct (onChange_frame p c s) as (-> & -> & -> & ->);
      rewrite (onChange_notified p c s)
  end;
  repeat split.

(** What an enabled event does: the colour [c] it confirms, or nothing
    but the buffer. *)
Lemma handle_enabled (p : Props) (ev : Event) (st : State) :
  disabled p = false ->
  (exists text, ev = TextInput text /\ isValidHex text = false
                /\ handle p ev st = setInputValue text st)
  \/ (exists c base,
        handle p ev st = updateRecentColors p c base
        /\ currentColor base = c /\ inputValue base = c
        /\ recentColors base = recentColors st
        /\ notified base
           = (if onChangeGiven p then notified st ++ [c] else notified st)
        /\ saved base = saved st
        /\ c = match ev with
               | SwatchClick color => color
               | _ => JS.toUpperCase (payload ev)
               end).
Proof.
  intros Hen. destruct ev as [text | value | color]; cbn [handle payload].
  - unfold handleInputChange. destruct (isValidHex text) eqn:Hvalid.
    + right. unfold handleColorChange. rewrite Hen. confirmed_base.
    + left. exists text. repeat split. exact Hvalid.
  - right. unfold handleNativePickerChange, handleColorChange. rewrite Hen.
    confirmed_base.
  - right. unfold handlePresetClick, handleColorChange. rewrite Hen.
    confirmed_base.
Qed.

(** X4.  A disabled component.  No event changes the confirmed colour, the
    recent list, the notifications or the storage writes; only typed text
    reaches the input buffer. *)
Theorem disabled_component_is_inert (p : Props) (events : list Event) (st : State) :
  disabled p = true ->
  currentColor (run p events st) = currentColor st
  /\ recentColors (run p events st) = recentColors st
  /\ notified (run p events st) = notified st
  /\ saved (run p events st) = saved st
  /\ (Forall (fun ev => forall text, ev <> TextInput text) events ->
      run p events st = st).
Proof.
  intros Hd. revert st. induction events as [| ev events IH]; intros st.
  - repeat split.
  - rewrite run_cons, (handle_disabled p ev st Hd).
    destruct (IH (match ev with
                  | TextInput text => setInputValue text st
                  | _ => st
                  end)) as (Hc & Hr & Hn & Hs & Hsame).
    rewrite Hc, Hr, Hn, Hs.
    destruct ev as [text | value | color]; cbn; repeat split;
      intros Hno; inversion Hno as [| ? ? Hev Hrest]; subst;
      try (exfalso; apply (Hev text); reflexivity);
      apply Hsame; exact Hrest.
Qed.

Lemma disabled_component_is_inert_witness :
  let p := mkProps true 6 FormatHex in
  let st := mkState "#000000" "#000000" ["#FF0000"%string] [] [] in
  let st' := run p [TextInput "#3b82f6"; SwatchClick "#00FF00"; NativePick "#0000ff"] st in
  currentColor st' = "#000000"%string
  /\ recentColors st' = ["#FF0000"%string]
  /\ notified st' = []
  /\ saved st' = []
  /\ (Forall (fun ev => forall text, ev <> TextInput text)
        [TextInput "#3b82f6"; SwatchClick "#00FF00"; NativePick "#0000ff"] ->
      st' = st).
Proof.
  intros p st st'.
  exact (disabled_component_is_inert p
           [TextInput "#3b82f6"; SwatchClick "#00FF00"; NativePick "#0000ff"] st eq_refl).
Defined.

(** X5.  An enabled click on a swatch whose colour fails the hex test: the
    colour becomes the confirmed colour and the buffer and, when the
    parent gave an [onChange] callback, is notified to it; the recent
    list and the storage are left alone, and the display formatter
    returns the colour unchanged in every format. *)
Theorem invalid_swatch_is_confirmed_not_recorded
    (p : Props) (st : State) (color : string) :
  disabled p = false -> isValidHex color = false ->
  let st' := handle p (SwatchClick color) st in
  currentColor st' = color /\ inputValue st' = color
  /\ notified st' = (if onChangeGiven p then notified st ++ [color] else notified st)
  /\ recentColors st' = recentColors st /\ saved st' = saved st
  /\ getFormattedColor p st' = color.
Proof.
  intros Hen Hbad st'. subst st'. cbn [handle]. unfold handlePresetClick. rewrite Hen.
  destruct (handleColorChange_enabled p color st Hen)
    as (Hcur & Hin & Hnote & Hrecent & _).
  rewrite Hbad in Hrecent.
  split; [exact Hcur |]. split; [exact Hin |]. split; [exact Hnote |].
  split; [exact Hrecent |]. split.
  - unfold handleColorChange, updateRecentColors. rewrite Hen, Hbad. cbn [negb].
    destruct (onChange_frame p color (setInputValue color (setCurrentColor color st)))
      as (_ & _ & _ & ->).
    reflexivity.
  - unfold getFormattedColor. rewrite Hcur, Hbad. reflexivity.
Qed.

Lemma invalid_swatch_is_confirmed_not_recorded_witness :
  let st := mkState "#000000" "#000000" ["#FF0000"%string] [] [] in
  (let p := mkProps false 6 FormatRgb in
   let st' := handle p (SwatchClick "tomato") st in
   currentColor st' = "tomato"%string /\ inputValue st' = "tomato"%string
   /\ notified st' = notified st ++ ["tomato"%string]
   /\ recentColors st' = recentColors st /\ saved st' = saved st
   /\ getFormattedColor p st' = "tomato"%string)
  /\ (let p := mkPropsWith false 6 FormatRgb false in
      let st' := handle p (SwatchClick "tomato") st in
      currentColor st' = "tomato"%string /\ inputValue st' = "tomato"%string
      /\ notified st' = notified st
      /\ recentColors st' = recentColors st /\ saved st' = saved st
      /\ getFormattedColor p st' = "tomato"%string).
Proof.
  intros st. split.
  - exact (invalid_swatch_is_confirmed_not_recorded
             (mkProps false 6 FormatRgb) st "tomato" eq_refl eq_refl).
  - exact (invalid_swatch_is_confirmed_not_recorded
             (mkPropsWith false 6 FormatRgb false) st "tomato" eq_refl eq_refl).
Defined.

(** What one event does to the recent list. *)
Lemma recentColors_handle (p : Props) (ev : Event) (st : State) :
  recentColors (handle p ev st) = recentColors st
  \/ exists c, isValidHex c = true
               /\ recentColors (handle p ev st)
                  = updatedRecentColors (maxRecentColors p) c (recentColors st).
Proof.
  destruct (disabled p) eqn:Hd.
  - left. rewrite (handle_disabled p ev st Hd). destruct ev; reflexivity.
  - destruct (handle_enabled p ev st Hd)
      as [(text & _ & _ & ->) | (c & base & -> & _ & _ & Hrecent & _)].
    + left. reflexivity.
    + rewrite recentColors_updateRecentColors, Hrecent.
      destruct (isValidHex c) eqn:Hc; [right; exists c; split; auto | left; reflexivity].
Qed.

Lemma updatedRecentColors_valid (max : Z) (c : string) (prev : list string) :
  isValidHex c = true ->
  Forall (fun x => isValidHex x = true) prev ->
  Forall (fun x => isValidHex x = true) (updatedRecentColors max c prev).
Proof.
  intros Hc Hprev. unfold updatedRecentColors.
  destruct (slice0_is_firstn
              (c :: filter (fun x => negb (JS.eqIgnoreCase x c)) prev) max) as [k ->].
  apply Forall_forall. intros x Hx.
  assert (In x (c :: filter (fun x => negb (JS.eqIgnoreCase x c)) prev)) as Hin.
  { rewrite <- (firstn_skipn k (c :: _)). apply in_or_app. left. exact Hx. }
  destruct Hin as [<- | Hin]; [exact Hc |].
  apply filter_In in Hin. rewrite Forall_forall in Hprev. apply Hprev. apply Hin.
Qed.

(** X6.  Whatever events arrive, in whatever order and whether the component
    is enabled or not, a recent list that holds only valid hex colours,
    no two equal ignoring case, and at most [maxRecentColors] of them,
    stays such a list. *)
Theorem history_stays_well_formed (p : Props) (events : list Event) (st : State) :
  Forall (fun c => isValidHex c = true) (recentColors st) ->
  RecentInvariant (maxRecentColors p) (recentColors st) ->
  Forall (fun c => isValidHex c = true) (recentColors (run p events st))
  /\ RecentInvariant (maxRecentColors p) (recentColors (run p events st)).
Proof.
  revert st. induction events as [| ev events IH]; intros st Hvalid Hinv.
  - split; assumption.
  - rewrite run_cons. apply IH.
    + destruct (recentColors_handle p ev st) as [-> | (c & Hc & ->)];
        [exact Hvalid | apply updatedRecentColors_valid; assumption].
    + destruct (recentColors_handle p ev st) as [-> | (c & Hc & ->)]; [exact Hinv |].
      destruct Hinv as [Hdup Hlen]. split.
      * apply updatedRecentColors_NoDup. exact Hdup.
      * apply slice0_length. lia.
Qed.

Lemma history_stays_well_formed_witness :
  let p := mkProps false 2 FormatHex in
  let st := initialState "#3B82F6" in
  let events := [SwatchClick "#ff0000"; TextInput "#FF000"; TextInput "#FF0000";
                 SwatchClick "tomato"; NativePick "#00ff00"; SwatchClick "#0000FF"] in
  Forall (fun c => isValidHex c = true) (recentColors (run p events st))
  /\ RecentInvariant (maxRecentColors p) (recentColors (run p events st)).
Proof.
  intros p st events.
  apply (history_stays_well_formed p events st).
  - constructor.
  - split; [constructor | simpl; lia].
Defined.

Lemma last_cons_default {A : Type} (a d : A) (l : list A) :
  last (a :: l) d = last l a.
Proof.
  revert a d. induction l as [| b l IH]; intros a d; [reflexivity |].
  change (last (a :: b :: l) d) with (last (b :: l) d).
  rewrite (IH b d), (IH b a). reflexivity.
Qed.

Section CoupledLog.

(** A log of the state and the value it follows: every event either
    leaves both alone or appends the new value to the log. *)
Variable A : Type.
Variable log : State -> list A.
Variable val : State -> A.
Variable p : Props.
Hypothesis coupled :
  forall ev st,
    (log (handle p ev st) = log st /\ val (handle p ev st) = val st)
    \/ log (handle p ev st) = log st ++ [val (handle p ev st)].

Lemma coupled_run (events : list Event) (st : State) :
  exists more,
    log (run p events st) = log st ++ more
    /\ last more (val st) = val (run p events st).
Proof.
  revert st. induction events as [| ev events IH]; intros st.
  - exists []. split; [symmetry; apply app_nil_r | reflexivity].
  - rewrite run_cons. destruct (IH (handle p ev st)) as (more & Hlog & Hlast).
    destruct (coupled ev st) as [[Hsame Hval] | Happ].
    + exists more. rewrite Hlog, Hsame, <- Hval. split; [reflexivity | exact Hlast].
    + exists (val (handle p ev st) :: more). rewrite Hlog, Happ, <- app_assoc.
      split; [reflexivity |]. rewrite last_cons_default. exact Hlast.
Qed.

End CoupledLog.

Lemma saved_coupled (p : Props) (ev : Event) (st : State) :
  (saved (handle p ev st) = saved st /\ recentColors (handle p ev st) = recentColors st)
  \/ saved (handle p ev st) = saved st ++ [recentColors (handle p ev st)].
Proof.
  destruct (disabled p) eqn:Hd.
  - left. rewrite (handle_disabled p ev st Hd). destruct ev; split; reflexivity.
  - destruct (handle_enabled p ev st Hd)
      as [(text & _ & _ & ->) | (c & base & -> & _ & _ & Hrecent & _ & Hsaved & _)].
    + left. split; reflexivity.
    + destruct (updateRecentColors_saved p c base) as [[Hr Hs] | Hs].
      * left. rewrite Hs, Hr. split; assumption.
      * right. rewrite Hs, Hsaved. reflexivity.
Qed.

(** What one event does to the notifications: it leaves them alone or
    appends the colour it confirmed. *)
Lemma notified_handle (p : Props) (ev : Event) (st : State) :
  notified (handle p ev st) = notified st
  \/ notified (handle p ev st) = notified st ++ [currentColor (handle p ev st)].
Proof.
  destruct (disabled p) eqn:Hd.
  - left. rewrite (handle_disabled p ev st Hd). destruct ev; reflexivity.
  - destruct (handle_enabled p ev st Hd)
      as [(text & _ & _ & ->) | (c & base & -> & Hcur & _ & _ & Hnote & _)].
    + left. reflexivity.
    + destruct (updateRecentColors_frame p c base) as (-> & _ & ->).
      rewrite Hnote, Hcur. destruct (onChangeGiven p); [right | left]; reflexivity.
Qed.

(** With an [onChange] callback, an event that leaves the notifications
    alone leaves the confirmed colour alone. *)
Lemma notified_coupled (p : Props) (ev : Event) (st : State) :
  onChangeGiven p = true ->
  (notified (handle p ev st) = notified st
   /\ currentColor (handle p ev st) = currentColor st)
  \/ notified (handle p ev st) = notified st ++ [currentColor (handle p ev st)].
Proof.
  intros Hgiven. destruct (disabled p) eqn:Hd.
  - left. rewrite (handle_disabled p ev st Hd). destruct ev; split; reflexivity.
  - destruct (handle_enabled p ev st Hd)
      as [(text & _ & _ & ->) | (c & base & -> & Hcur & _ & _ & Hnote & _)].
    + left. split; reflexivity.
    + right. destruct (updateRecentColors_frame p c base) as (-> & _ & ->).
      rewrite Hnote, Hcur, Hgiven. reflexivity.
Qed.

(** Without an [onChange] callback no event notifies. *)
Lemma notified_absent (p : Props) (events : list Event) (st : State) :
  onChangeGiven p = false -> notified (run p events st) = notified st.
Proof.
  intros Habsent. revert st. induction events as [| ev events IH]; intros st.
  - reflexivity.
  - rewrite run_cons, IH.
    destruct (disabled p) eqn:Hd.
    + rewrite (handle_disabled p ev st Hd). destruct ev; reflexivity.
    + destruct (handle_enabled p ev st Hd)
        as [(text & _ & _ & ->) | (c & base & -> & _ & _ & _ & Hnote & _)].
      * reflexivity.
      * destruct (updateRecentColors_frame p c base) as (_ & _ & ->).
        rewrite Hnote, Habsent. reflexivity.
Qed.

(** X7.  Every change of the recent list is written to storage in full: after
    any events the writes made are a log whose last entry is the recent
    list of the state; if nothing was written, the list is the one the
    events started from. *)
Theorem storage_follows_history (p : Props) (events : list Event) (st : State) :
  exists writes,
    saved (run p events st) = saved st ++ writes
    /\ last writes (recentColors st) = recentColors (run p events st).
Proof. apply coupled_run. apply saved_coupled. Qed.

(** X8.  For events whose native-picker values are valid hex colours, as the
    native colour input delivers them.  A parent that gave an [onChange]
    callback is told of every change of the confirmed colour: after
    any events the notifications made are a log whose last entry is the
    confirmed colour; if none was made, the confirmed colour is the one
    the events started from.  Without the callback no event notifies,
    whatever happens to the confirmed colour. *)
Theorem notifications_follow_color (p : Props) (events : list Event) (st : State) :
  forallb nativeValueValid events = true ->
  (onChangeGiven p = true ->
   exists notes,
     notified (run p events st) = notified st ++ notes
     /\ last notes (currentColor st) = currentColor (run p events st))
  /\ (onChangeGiven p = false -> notified (run p events st) = notified st).
Proof.
  intros _. split.
  - intros Hgiven. apply coupled_run. intros ev st0. apply notified_coupled. exact Hgiven.
  - apply notified_absent.
Qed.

Lemma notifications_follow_color_witness :
  let events := [TextInput "#3b82f"; TextInput "#3b82f6"; SwatchClick "tomato";
                 NativePick "#00ff7f"] in
  let st := initialState "#000000" in
  (exists notes,
     notified (run (mkProps false 6 FormatHex) events st) = notified st ++ notes
     /\ last notes (currentColor st)
        = currentColor (run (mkProps false 6 FormatHex) events st))
  /\ notified (run (mkPropsWith false 6 FormatHex false) events st) = notified st
  /\ currentColor (run (mkPropsWith false 6 FormatHex false) events st)
     = "#00FF7F"%string.
Proof.
  intros events st. split; [| split].
  - exact (proj1 (notifications_follow_color (mkProps false 6 FormatHex) events st
                    eq_refl) eq_refl).
  - exact (proj2 (notifications_follow_color (mkPropsWith false 6 FormatHex false)
                    events st eq_refl) eq_refl).
  - reflexivity.
Defined.

Lemma updatedRecentColors_again (max : Z) (c c' : string) (prev : list string) :
  0 <= max -> JS.eqIgnoreCase c c' = true ->
  updatedRecentColors max c' (updatedRecentColors max c prev)
  = updatedRecentColors max c' prev.
Proof.
  intros Hmax Heq. apply eqIgnoreCase_true in Heq.
  rewrite !updatedRecentColors_firstn by exact Hmax.
  assert (forall x, negb (JS.eqIgnoreCase x c') = negb (JS.eqIgnoreCase x c)) as Hsame.
  { intros x. unfold JS.eqIgnoreCase. rewrite Heq. reflexivity. }
  rewrite (filter_ext _ _ Hsame prev).
  rewrite (filter_ext _ _ Hsame (firstn _ _)).
  destruct (Z.to_nat max) as [| k]; [reflexivity |].
  rewrite !firstn_cons. cbn [filter]. rewrite eqIgnoreCase_refl. cbn [negb].
  f_equal.
  rewrite filter_all.
  - rewrite firstn_firstn, Nat.min_id. reflexivity.
  - intros x Hx.
    assert (In x (filter (fun x => negb (JS.eqIgnoreCase x c)) prev)) as Hin.
    { rewrite <- (firstn_skipn k (filter _ _)). apply in_or_app. left. exact Hx. }
    apply filter_In in Hin. apply Hin.
Qed.

(** X9.  Recording a valid colour and then a valid colour equal to it ignoring
    case (the same colour again, or the same colour in another case) gives
    the list that recording the second colour alone gives, when
    [maxRecentColors] is not negative. *)
Theorem recording_again_replaces (p : Props) (st : State) (c c' : string) :
  0 <= maxRecentColors p ->
  isValidHex c = true -> isValidHex c' = true -> JS.eqIgnoreCase c c' = true ->
  recentColors (updateRecentColors p c' (updateRecentColors p c st))
  = recentColors (updateRecentColors p c' st).
Proof.
  intros Hmax Hc Hc' Heq.
  rewrite !recentColors_updateRecentColors, Hc, Hc'.
  apply updatedRecentColors_again; assumption.
Qed.

Lemma recording_again_replaces_witness :
  let p := mkProps false 3 FormatHex in
  let st := mkState "#000000" "#000000" ["#FF0000"; "#00FF00"; "#0000FF"]%string [] [] in
  recentColors (updateRecentColors p "#ABCDEF" (updateRecentColors p "#abcdef" st))
  = recentColors (updateRecentColors p "#ABCDEF" st).
Proof.
  intros p st.
  apply (recording_again_replaces p st "#abcdef" "#ABCDEF"); try reflexivity.
  simpl. lia.
Defined.

(** X10.  The effect that follows the controlled value never touches the recent
    list, the notifications or the storage; an empty value, or the value
    that is already confirmed, changes nothing; any other value becomes
    the confirmed colour and the buffer, valid or not.  After an event
    that notified a colour, following that colour changes nothing: a
    parent that passes back what it was told causes no further update. *)
Theorem sync_follows_parent (value : string) (st : State) :
  recentColors (syncControlledValue value st) = recentColors st
  /\ notified (syncControlledValue value st) = notified st
  /\ saved (syncControlledValue value st) = saved st
  /\ (value = EmptyString \/ value = currentColor st ->
      syncControlledValue value st = st)
  /\ (value <> EmptyString -> value <> currentColor st ->
      currentColor (syncControlledValue value st) = value
      /\ inputValue (syncControlledValue value st) = value)
  /\ (forall p ev,
        notified (handle p ev st) = notified st ++ [value] ->
        syncControlledValue value (handle p ev st) = handle p ev st).
Proof.
  assert (forall st0, syncControlledValue (currentColor st0) st0 = st0) as Hsame.
  { intros st0. unfold syncControlledValue. rewrite String.eqb_refl, andb_false_r.
    reflexivity. }
  unfold syncControlledValue at 1 2 3.
  destruct (negb (String.length value =? 0)%nat
            && negb (String.eqb value (currentColor st))) eqn:Hcond;
    (split; [reflexivity |]); (split; [reflexivity |]); (split; [reflexivity |]).
  - split; [| split].
    + apply andb_prop in Hcond. destruct Hcond as [Hne Hdiff].
      intros [-> | ->]; [discriminate Hne |].
      rewrite String.eqb_refl in Hdiff. discriminate Hdiff.
    + intros _ _. unfold syncControlledValue. rewrite Hcond. split; reflexivity.
    + intros p ev Hnote.
      destruct (notified_handle p ev st) as [Hn | Hn].
      * rewrite Hn in Hnote. rewrite <- (app_nil_r (notified st)) in Hnote at 1.
        apply app_inv_head in Hnote. discriminate Hnote.
      * rewrite Hn in Hnote. apply app_inv_head in Hnote. injection Hnote as <-.
        apply Hsame.
  - split; [| split].
    + intros _. unfold syncControlledValue. rewrite Hcond. reflexivity.
    + intros Hne Hdiff. exfalso.
      apply andb_false_iff in Hcond. destruct Hcond as [Hc | Hc].
      * apply negb_false_iff, Nat.eqb_eq in Hc.
        destruct value; [apply Hne; reflexivity | discriminate Hc].
      * apply negb_false_iff, String.eqb_eq in Hc. contradiction.
    + intros p ev Hnote.
      destruct (notified_handle p ev st) as [Hn | Hn].
      * rewrite Hn in Hnote. rewrite <- (app_nil_r (notified st)) in Hnote at 1.
        apply app_inv_head in Hnote. discriminate Hnote.
      * rewrite Hn in Hnote. apply app_inv_head in Hnote. injection Hnote as <-.
        apply Hsame.
Qed.

(** X11.  An enabled event that carries a valid hex colour confirms it (in
    upper case when it was typed or came from the native picker, as it is
    when it came from a swatch): the confirmed colour is valid, fills the
    buffer and, when the parent gave an [onChange] callback, is the one
    notification added.  The recent list becomes the update of the
    earlier list with the confirmed colour and is written to storage;
    when [maxRecentColors] is at least 1 it is the confirmed colour
    followed by the earlier entries that differ from it ignoring case,
    as many as the bound leaves room for. *)
Theorem valid_event_confirms_and_records (p : Props) (ev : Event) (st : State) :
  disabled p = false -> isValidHex (payload ev) = true ->
  let st' := handle p ev st in
  currentColor st' = match ev with
                     | SwatchClick color => color
                     | _ => JS.toUpperCase (payload ev)
                     end
  /\ isValidHex (currentColor st') = true
  /\ inputValue st' = currentColor st'
  /\ notified st'
     = (if onChangeGiven p then notified st ++ [currentColor st'] else notified st)
  /\ recentColors st'
     = updatedRecentColors (maxRecentColors p) (currentColor st') (recentColors st)
  /\ (1 <= maxRecentColors p ->
      recentColors st'
      = currentColor st'
          :: firstn (Z.to_nat (maxRecentColors p - 1))
               (filter (fun c => negb (JS.eqIgnoreCase c (currentColor st')))
                  (recentColors st)))
  /\ saved st' = saved st ++ [recentColors st'].
Proof.
  intros Hen Hvalid st'. subst st'.
  destruct (handle_enabled p ev st Hen)
    as [(text & -> & Hbad & _)
       | (c & base & -> & Hcur & Hin & Hrecent & Hnote & Hsaved & Hc)].
  - cbn [payload] in Hvalid. congruence.
  - assert (isValidHex c = true) as Hcvalid.
    { rewrite Hc. destruct ev; try apply isValidHex_toUpper; exact Hvalid. }
    assert (saved (updateRecentColors p c base)
            = saved st ++ [recentColors (updateRecentColors p c base)]) as Hwritten.
    { unfold updateRecentColors. rewrite Hcvalid. cbn. rewrite Hsaved. reflexivity. }
    rewrite Hwritten, recentColors_updateRecentColors, Hcvalid, Hrecent.
    destruct (updateRecentColors_frame p c base) as (-> & -> & ->).
    rewrite Hcur, Hin, Hnote.
    split; [exact Hc |]. split; [exact Hcvalid |].
    split; [reflexivity |]. split; [reflexivity |]. split; [reflexivity |].
    split; [| reflexivity].
    apply updatedRecentColors_front.
Qed.

Lemma valid_event_confirms_and_records_witness :
  let p := mkProps false 6 FormatHex in
  let st := mkState "#000000" "#000000" ["#FF0000"; "#00ff7f"; "#0000FF"]%string [] [] in
  let st' := handle p (NativePick "#00ff7f") st in
  currentColor st' = "#00FF7F"%string
  /\ isValidHex (currentColor st') = true
  /\ inputValue st' = "#00FF7F"%string
  /\ notified st' = ["#00FF7F"%string]
  /\ recentColors st' = ["#00FF7F"; "#FF0000"; "#0000FF"]%string
  /\ (1 <= maxRecentColors p ->
      recentColors st' = ["#00FF7F"; "#FF0000"; "#0000FF"]%string)
  /\ saved st' = [["#00FF7F"; "#FF0000"; "#0000FF"]%string].
Proof.
  intros p st.
  exact (valid_event_confirms_and_records p (NativePick "#00ff7f") st eq_refl eq_refl).
Defined.

(* ================================================================== *)
(** ** The registry and its pages *)
(* ================================================================== *)

Lemma getRegistryItem_Some (items : list Registry.Item) (n : string) (item : Registry.Item) :
  Registry.getRegistryItem items n = Some item ->
  exists before after,
    items = before ++ item :: after
    /\ Registry.name item = n
    /\ Forall (fun x => Registry.name x <> n) before.
Proof.
  unfold Registry.getRegistryItem.
  induction items as [| x items IH]; cbn [find]; intros H; [discriminate H |].
  destruct (String.eqb (Registry.name x) n) eqn:E.
  - injection H as <-. exists [], items.
    split; [reflexivity |]. split; [apply String.eqb_eq; exact E | constructor].
  - destruct (IH H) as (before & after & -> & Hname & Hbefore).
    exists (x :: before), after. split; [reflexivity |]. split; [exact Hname |].
    constructor; [apply String.eqb_neq; exact E | exact Hbefore].
Qed.

Lemma getRegistryItem_None (items : list Registry.Item) (n : string) :
  Registry.getRegistryItem items n = None
  <-> ~ In n (Registry.getRegistryItemSlugs items).
Proof.
  unfold Registry.getRegistryItem, Registry.getRegistryItemSlugs.
  induction items as [| x items IH]; cbn [find map].
  - split; [intros _ [] | reflexivity].
  - destruct (String.eqb (Registry.name x) n) eqn:E.
    + apply String.eqb_eq in E. split; [discriminate |].
      intros H. exfalso. apply H. left. exact E.
    + apply String.eqb_neq in E. rewrite IH. cbn [In]. tauto.
Qed.

(** X12.  [getRegistryItem] returns the first item of the registry whose name
    is the one asked for, and [undefined] exactly when no slug of
    [getRegistryItemSlugs] is that name; when the names of the registry
    are pairwise different, every item is found under its own name. *)
Theorem getRegistryItem_finds_first (items : list Registry.Item) (n : string) :
  (forall item,
      Registry.getRegistryItem items n = Some item ->
      exists before after,
        items = before ++ item :: after
        /\ Registry.name item = n
        /\ Forall (fun x => Registry.name x <> n) before)
  /\ (Registry.getRegistryItem items n = None
      <-> ~ In n (Registry.getRegistryItemSlugs items))
  /\ (NoDup (Registry.getRegistryItemSlugs items) ->
      forall item, In item (Registry.getAllRegistryItems items) ->
                   Registry.getRegistryItem items (Registry.name item) = Some item).
Proof.
  split; [apply getRegistryItem_Some |]. split; [apply getRegistryItem_None |].
  unfold Registry.getRegistryItemSlugs, Registry.getAllRegistryItems,
    Registry.getRegistryItem.
  clear n. induction items as [| x items IH]; intros Hdup item Hin; [destruct Hin |].
  cbn [map] in Hdup. inversion Hdup as [| ? ? Hnotin Hrest]; subst.
  cbn [find]. destruct Hin as [<- | Hin].
  - rewrite String.eqb_refl. reflexivity.
  - destruct (String.eqb (Registry.name x) (Registry.name item)) eqn:E.
    + apply String.eqb_eq in E. exfalso. apply Hnotin. rewrite E.
      apply in_map. exact Hin.
    + apply IH; assumption.
Qed.

(** X13.  Every slug that [generateStaticParams] produces has an item:
    [ComponentPage] renders that item and does not call [notFound()], and
    [generateMetadata] gives the item's title followed by [" - Chisom UI"]
    and its description.  For any other slug the page is not found and the
    title is ["Component Not Found"].  The cards of the home page link to
    exactly the generated slugs, in the same order. *)
Theorem static_pages_resolve (items : list Registry.Item) :
  (forall slug,
      In slug (Registry.generateStaticParams items) ->
      exists item,
        Registry.getRegistryItem items slug = Some item
        /\ Registry.name item = slug
        /\ Registry.ComponentPage items slug = Registry.ComponentView item
        /\ Registry.generateMetadata items slug
           = Registry.mkMetadata (Registry.title item ++ " - Chisom UI")
                                 (Some (Registry.description item)))
  /\ (forall slug,
        ~ In slug (Registry.generateStaticParams items) ->
        Registry.ComponentPage items slug = Registry.NotFound
        /\ Registry.generateMetadata items slug
           = Registry.mkMetadata "Component Not Found" None)
  /\ Registry.homeLinks items
     = map (fun slug => ("/components/" ++ slug)%string)
           (Registry.generateStaticParams items).
Proof.
  assert (Registry.generateStaticParams items = Registry.getRegistryItemSlugs items)
    as Hparams by (unfold Registry.generateStaticParams; apply map_id).
  rewrite Hparams. split; [| split].
  - intros slug Hin.
    destruct (Registry.getRegistryItem items slug) as [item |] eqn:E.
    + exists item. destruct (getRegistryItem_Some items slug item E)
        as (_ & _ & _ & Hname & _).
      unfold Registry.ComponentPage, Registry.generateMetadata. rewrite E.
      repeat split. exact Hname.
    + apply getRegistryItem_None in E. contradiction.
  - intros slug Hnot. apply getRegistryItem_None in Hnot.
    unfold Registry.ComponentPage, Registry.generateMetadata. rewrite Hnot.
    split; reflexivity.
  - unfold Registry.homeLinks, Registry.getAllRegistryItems,
      Registry.getRegistryItemSlugs.
    rewrite map_map. reflexivity.
Qed.

Lemma static_pages_resolve_witness :
  let tag := Registry.mkItem "multi-tag-input" "registry:ui" "Multi Tag Input"
               "A tag input" None (Some ["lucide-react"%string]) [] in
  let search := Registry.mkItem "search-input" "registry:ui" "Search Input"
                  "A search input" None None [] in
  let items := [tag; search] in
  Registry.getRegistryItem items "search-input" = Some search
  /\ Registry.ComponentPage items "search-input" = Registry.ComponentView search
  /\ Registry.generateMetadata items "search-input"
     = Registry.mkMetadata "Search Input - Chisom UI" (Some "A search input"%string)
  /\ Registry.ComponentPage items "color-picker-input" = Registry.NotFound
  /\ Registry.generateMetadata items "color-picker-input"
     = Registry.mkMetadata "Component Not Found" None.
Proof.
  intros tag search items.
  destruct (static_pages_resolve items) as (Hfound & Hmissing & _).
  destruct (Hfound "search-input"%string) as (item & Hitem & _ & Hpage & Hmeta).
  { right. left. reflexivity. }
  assert (Registry.getRegistryItem items "search-input" = Some search) as Hs
    by reflexivity.
  rewrite Hs in Hitem. injection Hitem as <-.
  split; [exact Hs |].
  destruct (Hmissing "color-picker-input"%string) as (Hpage' & Hmeta').
  { simpl. intuition discriminate. }
  split; [exact Hpage |]. split; [exact Hmeta |]. split; [exact Hpage' | exact Hmeta'].
Defined.

Lemma getRegistryItem_finds_first_witness :
  let first := Registry.mkItem "search-input" "registry:ui" "Search Input"
                 "The first of two" None None [] in
  let second := Registry.mkItem "search-input" "registry:ui" "Search Input 2"
                  "Never found" None None [] in
  Registry.getRegistryItem [first; second] "tag-input" = None
  /\ Registry.getRegistryItem [first] (Registry.name first) = Some first.
Proof.
  intros first second. split.
  - apply (proj1 (proj2 (getRegistryItem_finds_first [first; second] "tag-input"))).
    simpl. intuition discriminate.
  - apply (proj2 (proj2 (getRegistryItem_finds_first [first] "search-input"))).
    + repeat constructor. simpl. tauto.
    + left. reflexivity.
Defined.

(* ================================================================== *)
(** ** The search input *)
(* ================================================================== *)

Lemma search_run_cons (p : SearchInput.Props) (ev : SearchInput.Event)
    (events : list SearchInput.Event) (st : SearchInput.State) :
  SearchInput.run p (ev :: events) st
  = SearchInput.run p events (SearchInput.handle p ev st).
Proof. reflexivity. Qed.

Ltac search_finish :=
  split; [reflexivity |];
  split; [reflexivity |];
  let H := fresh in intros H; first [discriminate H | reflexivity].

Ltac search_calls :=
  cbn; rewrite <- ?app_assoc; cbn [app];
  first [ exists (@nil SearchInput.Call); rewrite ?app_nil_r; search_finish
        | eexists [_]; search_finish
        | eexists [_; _]; search_finish
        | eexists [_; _; _]; search_finish ].

(** What one handler does to the calls and to the internal value. *)
Lemma search_handle_calls (p : SearchInput.Props) (ev : SearchInput.Event)
    (st : SearchInput.State) :
  exists more,
    SearchInput.calls (SearchInput.handle p ev st) = SearchInput.calls st ++ more
    /\ forallb (SearchInput.allowedCall p) more = true
    /\ (SearchInput.isControlled p = true ->
        SearchInput.internalValue (SearchInput.handle p ev st)
        = SearchInput.internalValue st).
Proof.
  destruct p as [value onChange onSearch onRecent showRecent recent max disabled loading].
  destruct ev as [text | | key | search | | inside]; cbn [SearchInput.handle];
    unfold SearchInput.handleChange, SearchInput.handleKeyDown,
      SearchInput.handleClear, SearchInput.handleRecentClick,
      SearchInput.handleFocus, SearchInput.handleClickOutside,
      SearchInput.isControlled, SearchInput.callIf;
    destruct value; cbn;
    repeat match goal with
           | |- context [if ?c then _ else _] => destruct c
           end;
    search_calls.
Qed.

(** X14.  The calls the search input makes from its handlers, over any events:
    a callback that is not given is never called; in the uncontrolled
    mode [onChange] is never called, and in the controlled mode the
    internal value never changes; [onSearch] is called with the empty text
    only, so typed text reaches [onSearch] only through the debounced
    effect. *)
Theorem search_handlers_call_discipline
    (p : SearchInput.Props) (events : list SearchInput.Event) (st : SearchInput.State) :
  exists more,
    SearchInput.calls (SearchInput.run p events st) = SearchInput.calls st ++ more
    /\ Forall (fun c => SearchInput.allowedCall p c = true) more
    /\ (SearchInput.isControlled p = true ->
        SearchInput.internalValue (SearchInput.run p events st)
        = SearchInput.internalValue st)
    /\ (SearchInput.isControlled p = false ->
        forall v, ~ In (SearchInput.OnChange v) more)
    /\ (forall v, In (SearchInput.OnSearch v) more ->
                  v = EmptyString /\ SearchInput.onSearch p = true).
Proof.
  assert (exists more,
            SearchInput.calls (SearchInput.run p events st) = SearchInput.calls st ++ more
            /\ Forall (fun c => SearchInput.allowedCall p c = true) more
            /\ (SearchInput.isControlled p = true ->
                SearchInput.internalValue (SearchInput.run p events st)
                = SearchInput.internalValue st)) as (more & Hcalls & Hallowed & Hval).
  { revert st. induction events as [| ev events IH]; intros st.
    - exists []. rewrite app_nil_r. repeat split. constructor.
    - rewrite search_run_cons.
      destruct (search_handle_calls p ev st) as (m1 & Hc1 & Ha1 & Hv1).
      destruct (IH (SearchInput.handle p ev st)) as (m2 & Hc2 & Ha2 & Hv2).
      exists (m1 ++ m2). rewrite Hc2, Hc1, <- app_assoc.
      split; [reflexivity |]. split.
      + apply Forall_app. split; [| exact Ha2].
        apply Forall_forall. rewrite forallb_forall in Ha1. exact Ha1.
      + intros Hctl. rewrite (Hv2 Hctl). apply Hv1. exact Hctl. }
  exists more. split; [exact Hcalls |]. split; [exact Hallowed |].
  split; [exact Hval |]. rewrite Forall_forall in Hallowed. split.
  - intros Hun v Hin. specialize (Hallowed _ Hin). cbn in Hallowed.
    rewrite Hun in Hallowed. discriminate Hallowed.
  - intros v Hin. specialize (Hallowed _ Hin). cbn in Hallowed.
    apply andb_prop in Hallowed. destruct Hallowed as [Hgiven Hempty].
    split; [| exact Hgiven].
    destruct v; [reflexivity | discriminate Hempty].
Qed.

Lemma isEmpty_true (text : string) : SearchInput.isEmpty text = true <-> text = EmptyString.
Proof.
  unfold SearchInput.isEmpty. destruct text; cbn; split; intros H;
    reflexivity || discriminate H.
Qed.

(** In the uncontrolled mode every handler keeps: when the dropdown flag
    is set, the input is empty. *)
Lemma search_handle_flag (p : SearchInput.Props) (ev : SearchInput.Event)
    (st : SearchInput.State) :
  SearchInput.value p = None ->
  (SearchInput.showRecent st = true ->
   SearchInput.isEmpty (SearchInput.internalValue st) = true) ->
  SearchInput.showRecent (SearchInput.handle p ev st) = true ->
  SearchInput.isEmpty (SearchInput.internalValue (SearchInput.handle p ev st)) = true.
Proof.
  destruct p as [value onChange onSearch onRecent showRecent recent max disabled loading].
  cbn [SearchInput.value]. intros -> Hinv.
  destruct ev as [text | | key | search | | inside]; cbn [SearchInput.handle];
    unfold SearchInput.handleChange, SearchInput.handleKeyDown,
      SearchInput.handleClear, SearchInput.handleRecentClick,
      SearchInput.handleFocus, SearchInput.handleClickOutside,
      SearchInput.isControlled, SearchInput.callIf, SearchInput.inputValue; cbn;
    repeat match goal with
           | |- context [if ?c then _ else _] => destruct c eqn:?
           end;
    cbn; intros Hflag; try discriminate Hflag; try (apply Hinv; exact Hflag);
    repeat match goal with
           | H : (_ && _) = true |- _ => apply andb_prop in H; destruct H
           end;
    assumption.
Qed.

(** X15.  The dropdown of an uncontrolled search input is rendered only while
    the input is empty, and then the clear button is not rendered: this
    holds after any events, from any state in which it holds, the initial
    state among them.  What the dropdown lists is the first
    [maxRecentSearches] entries of [recentSearches], in their order, when
    that bound is not negative. *)
Theorem search_dropdown_only_when_empty
    (p : SearchInput.Props) (events : list SearchInput.Event) (st : SearchInput.State) :
  SearchInput.value p = None ->
  (SearchInput.showRecent st = true -> SearchInput.internalValue st = EmptyString) ->
  let st' := SearchInput.run p events st in
  (SearchInput.dropdownVisible p st' = true ->
   SearchInput.inputValue p st' = EmptyString
   /\ SearchInput.clearButtonVisible p st' = false)
  /\ (0 <= SearchInput.maxRecentSearches p ->
      SearchInput.displayedRecentSearches p
      = firstn (Z.to_nat (SearchInput.maxRecentSearches p)) (SearchInput.recentSearches p)
      /\ Z.of_nat (List.length (SearchInput.displayedRecentSearches p))
         <= SearchInput.maxRecentSearches p).
Proof.
  intros Hun Hinv st'. split.
  - assert (SearchInput.showRecent st' = true ->
            SearchInput.isEmpty (SearchInput.internalValue st') = true) as Hflag.
    { subst st'. revert st Hinv. induction events as [| ev events IH]; intros st Hinv.
      - intros H. apply isEmpty_true. apply Hinv. exact H.
      - rewrite search_run_cons. apply IH. intros H. apply isEmpty_true.
        apply (search_handle_flag p ev st Hun); [| exact H].
        intros H0. apply isEmpty_true. apply Hinv. exact H0. }
    intros Hvis. unfold SearchInput.dropdownVisible in Hvis.
    apply andb_prop in Hvis. destruct Hvis as [Hvis _].
    apply andb_prop in Hvis. destruct Hvis as [Hshow _].
    specialize (Hflag Hshow).
    unfold SearchInput.clearButtonVisible, SearchInput.inputValue. rewrite Hun, Hflag.
    split; [apply isEmpty_true; exact Hflag | reflexivity].
  - intros Hmax. unfold SearchInput.displayedRecentSearches.
    split; [apply slice0_firstn; exact Hmax | apply slice0_length; exact Hmax].
Qed.

Lemma search_dropdown_only_when_empty_witness :
  let p := SearchInput.mkProps None false true false true
             ["React"; "TypeScript"; "Next.js"]%string 2 false false in
  let events := [SearchInput.Focus; SearchInput.Change "r"; SearchInput.KeyDown "Escape";
                 SearchInput.Change ""] in
  let st' := SearchInput.run p events SearchInput.initialState in
  (SearchInput.dropdownVisible p st' = true ->
   SearchInput.inputValue p st' = EmptyString
   /\ SearchInput.clearButtonVisible p st' = false)
  /\ (0 <= SearchInput.maxRecentSearches p ->
      SearchInput.displayedRecentSearches p
      = firstn (Z.to_nat (SearchInput.maxRecentSearches p)) (SearchInput.recentSearches p)
      /\ Z.of_nat (List.length (SearchInput.displayedRecentSearches p))
         <= SearchInput.maxRecentSearches p).
Proof.
  intros p events.
  apply (search_dropdown_only_when_empty p events SearchInput.initialState).
  - reflexivity.
  - intros H. discriminate H.
Defined.

Lemma includes_In (l : list string) (v : string) :
  SearchInput.includes l v = true <-> In v l.
Proof.
  unfold SearchInput.includes. rewrite existsb_exists. split.
  - intros (x & Hin & Heq). apply String.eqb_eq in Heq. subst x. exact Hin.
  - intros Hin. exists v. split; [exact Hin | apply String.eqb_refl].
Qed.

Lemma demoRecentSearches_added (searched : string) (captured current : list string) :
  searched <> EmptyString -> ~ In searched captured ->
  SearchInput.demoRecentSearches searched captured current
  = searched :: firstn 4 captured.
Proof.
  intros Hne Hnot. unfold SearchInput.demoRecentSearches.
  assert (SearchInput.isEmpty searched = false) as ->.
  { destruct (SearchInput.isEmpty searched) eqn:E; [| reflexivity].
    apply isEmpty_true in E. contradiction. }
  assert (SearchInput.includes captured searched = false) as ->.
  { destruct (SearchInput.includes captured searched) eqn:E; [| reflexivity].
    apply includes_In in E. contradiction. }
  cbn [negb andb]. rewrite slice0_firstn by lia. reflexivity.
Qed.

Lemma demoRecentSearches_kept (searched : string) (captured current : list string) :
  searched = EmptyString \/ In searched captured ->
  SearchInput.demoRecentSearches searched captured current = current.
Proof.
  intros H. unfold SearchInput.demoRecentSearches.
  destruct H as [-> | Hin]; [reflexivity |].
  apply includes_In in Hin. rewrite Hin, andb_false_r. reflexivity.
Qed.

(** X16.  The list update of the demo's search handler.  An empty search, and a
    search that the captured list holds, leave the recent searches as they
    are; every other search is put in front of the first four captured
    entries.  A list without repeats of at most five entries stays one.
    When two different new searches captured the same list, the update of
    the later one drops the earlier search. *)
Theorem demo_recent_searches (searched : string) (captured current : list string) :
  (searched = EmptyString \/ In searched captured ->
   SearchInput.demoRecentSearches searched captured current = current)
  /\ (searched <> EmptyString -> ~ In searched captured ->
      SearchInput.demoRecentSearches searched captured current
      = searched :: firstn 4 captured)
  /\ (NoDup captured -> NoDup current -> (List.length current <= 5)%nat ->
      NoDup (SearchInput.demoRecentSearches searched captured current)
      /\ (List.length (SearchInput.demoRecentSearches searched captured current) <= 5)%nat)
  /\ (forall earlier,
        earlier <> EmptyString -> searched <> EmptyString -> earlier <> searched ->
        ~ In earlier captured -> ~ In searched captured ->
        ~ In earlier
            (SearchInput.demoRecentSearches searched captured
               (SearchInput.demoRecentSearches earlier captured captured))).
Proof.
  split; [apply demoRecentSearches_kept |].
  split; [apply demoRecentSearches_added |].
  split.
  - intros Hcap Hcur Hlen.
    destruct (string_dec searched EmptyString) as [He | Hne].
    { rewrite demoRecentSearches_kept by (left; exact He). split; assumption. }
    destruct (in_dec string_dec searched captured) as [Hin | Hnot].
    { rewrite demoRecentSearches_kept by (right; exact Hin). split; assumption. }
    rewrite demoRecentSearches_added by assumption. split.
    + constructor.
      * intros Hin. apply Hnot.
        rewrite <- (firstn_skipn 4 captured). apply in_or_app. left. exact Hin.
      * apply NoDup_firstn. exact Hcap.
    + cbn [List.length]. pose proof (firstn_le_length 4 captured).
      rewrite length_firstn. lia.
  - intros earlier He Hs Hdiff Hearlier Hsearched.
    rewrite demoRecentSearches_added by assumption.
    intros [Heq | Hin]; [apply Hdiff; symmetry; exact Heq |].
    apply Hearlier. rewrite <- (firstn_skipn 4 captured).
    apply in_or_app. left. exact Hin.
Qed.

Lemma demo_recent_searches_witness :
  let three := ["React"; "TypeScript"; "Next.js"]%string in
  let two := ["React"; "TypeScript"]%string in
  let other := ["Vue"; "React"; "TypeScript"]%string in
  SearchInput.demoRecentSearches "Rocq" three three = ("Rocq"%string :: three)
  /\ SearchInput.demoRecentSearches "React" two other = other.
Proof.
  intros three two other. split.
  - apply (proj1 (proj2 (demo_recent_searches "Rocq" three three))).
    + discriminate.
    + simpl. intuition discriminate.
  - apply (proj1 (demo_recent_searches "React" two other)).
    right. left. reflexivity.
Defined.
